(** * azure-config-check: a shallow embedding of [scripts/azure-config-check.py]

    The script lints Bicep templates with regular expressions and substring
    tests, collects findings in two lists of an [AzureConfigChecker] object
    and turns them into a process exit status.

    Layout of this file:
    - [Text]: characters and the string operations of Python the script uses
      ([in], [str.endswith], concatenation);
    - [Re]: the fragment of Python's [re] module the script's patterns live
      in (a pattern compiler and a backtracking matcher with capture
      groups, [re.search], [re.match], [re.findall]);
    - [Checker]: the class [AzureConfigChecker] and [main];
    - the properties of the specification, one theorem each.

    A Python [str] is modelled as a Rocq [string]: one [ascii] per code
    point, so documents range over the code points 0..255. *)

From Stdlib Require Import String Ascii List Bool Arith Lia Permutation.
Import ListNotations.

Local Open Scope list_scope.
Local Open Scope string_scope.

(* ================================================================= *)
(** ** Characters and strings *)

Module Text.

(** The double quote, which a Rocq string literal cannot hold as is. *)
Definition dq : string := String (ascii_of_nat 34) EmptyString.
Definition dquote : ascii := ascii_of_nat 34.
Definition squote : ascii := ascii_of_nat 39.
Definition newline : ascii := ascii_of_nat 10.
Definition nl : string := String newline EmptyString.

Definition between (lo hi : nat) (c : ascii) : bool :=
  let n := nat_of_ascii c in ((lo <=? n) && (n <=? hi))%nat.

Definition is_upper (c : ascii) : bool := between 65 90 c.
Definition is_lower (c : ascii) : bool := between 97 122 c.
Definition is_digit (c : ascii) : bool := between 48 57 c.

(** Case folding of the ASCII letters.  For a pattern made of ASCII
    letters this is what [re.IGNORECASE] compares on code points 0..255:
    no other code point of that range lowers to an ASCII letter. *)
Definition lower (c : ascii) : ascii :=
  if is_upper c then ascii_of_nat (nat_of_ascii c + 32) else c.

Definition upper (c : ascii) : ascii :=
  if is_lower c then ascii_of_nat (nat_of_ascii c - 32) else c.

(** [\s] on a [str] pattern: the ASCII white space of Python, which
    counts the separators 0x1c..0x1f, and NEL and NBSP above 127. *)
Definition is_space (c : ascii) : bool :=
  between 9 13 c || between 28 32 c
  || (nat_of_ascii c =? 133)%nat || (nat_of_ascii c =? 160)%nat.

(** [\w] on a [str] pattern: alphanumeric or underscore.  Above 127 the
    alphanumeric code points of Latin-1 are the letters, the ordinal
    indicators, the micro sign, the superscript digits and the vulgar
    fractions. *)
Definition is_word (c : ascii) : bool :=
  let n := nat_of_ascii c in
  (is_upper c || is_lower c || is_digit c || (n =? 95)
   || (n =? 170) || (n =? 181) || (n =? 186)
   || (n =? 178) || (n =? 179) || (n =? 185) || between 188 190 c
   || (between 192 255 c && negb (n =? 215) && negb (n =? 247)))%nat.

(** [s.startswith(p)] *)
Fixpoint startswith (s p : string) {struct p} : bool :=
  match p with
  | EmptyString => true
  | String a p' =>
      match s with
      | String b s' => Ascii.eqb a b && startswith s' p'
      | EmptyString => false
      end
  end.

(** [needle in hay] on two strings: exact, case-sensitive substring
    search. *)
Fixpoint contains (needle hay : string) : bool :=
  startswith hay needle ||
  match hay with
  | String _ hay' => contains needle hay'
  | EmptyString => false
  end.

(** [s.endswith(suffix)] *)
Definition endswith (s suffix : string) : bool :=
  let n := String.length s in
  let m := String.length suffix in
  (m <=? n)%nat && String.eqb (substring (n - m) m s) suffix.

(** The text with every ASCII letter lowered, used to speak of a keyword
    that occurs "in another letter case". *)
Fixpoint lowercase (s : string) : string :=
  match s with
  | EmptyString => EmptyString
  | String c s' => String (lower c) (lowercase s')
  end.

Definition contains_nocase (needle hay : string) : bool :=
  contains (lowercase needle) (lowercase hay).

End Text.

(* ================================================================= *)
(** ** The fragment of Python's [re] the script uses *)

Module Re.
Import Text.

(** Flags: [re.IGNORECASE] and [re.DOTALL]; [re.MULTILINE] is never set
    by the script, so [^] and [$] have their default meaning. *)
Record flags := Flags { ignorecase : bool; dotall : bool }.

Definition NOFLAGS : flags := Flags false false.
Definition IGNORECASE : flags := Flags true false.
Definition DOTALL : flags := Flags false true.
(** [a | b] on flags *)
Definition flag_or (a b : flags) : flags :=
  Flags (ignorecase a || ignorecase b) (dotall a || dotall b).

(** Members of a bracketed set. *)
Inductive set_item :=
| SChar (c : ascii)
| SRange (lo hi : ascii)
| SSpace
| SWord
| SDigit.

(** What consumes exactly one character. *)
Inductive atom :=
| ALit (c : ascii)
| ADot
| ASpace
| AWord
| ADigit
| ASet (negated : bool) (items : list set_item).

(** Compiled patterns.  Every repetition in the script's patterns is a
    greedy one over a single-character atom, which is what [Rep] holds;
    [hi = None] is an open upper bound. *)
Inductive regex :=
| Eps
| One (a : atom)
| Rep (a : atom) (lo : nat) (hi : option nat)
| Cat (r1 r2 : regex)
| Alt (r1 r2 : regex)
| Grp (n : nat) (r : regex)
| Bol
| Eol.

(* --------------------------------------------------------------- *)
(** *** Matching one character *)

Definition item_match (ic : bool) (it : set_item) (c : ascii) : bool :=
  match it with
  | SChar p => if ic then Ascii.eqb (lower c) (lower p) else Ascii.eqb c p
  | SRange lo hi =>
      let inr x := between (nat_of_ascii lo) (nat_of_ascii hi) x in
      if ic then inr (lower c) || inr (upper c) else inr c
  | SSpace => is_space c
  | SWord => is_word c
  | SDigit => is_digit c
  end.

Definition atom_match (fl : flags) (a : atom) (c : ascii) : bool :=
  match a with
  | ALit p =>
      if ignorecase fl then Ascii.eqb (lower c) (lower p) else Ascii.eqb c p
  | ADot => dotall fl || negb (Ascii.eqb c newline)
  | ASpace => is_space c
  | AWord => is_word c
  | ADigit => is_digit c
  | ASet neg items =>
      xorb neg (existsb (fun it => item_match (ignorecase fl) it c) items)
  end.

(* --------------------------------------------------------------- *)
(** *** The backtracking matcher

    The matcher walks the text with the index [i] of the next character
    and the rest [s] of the text from there; [g] holds the groups
    captured so far, most recent first.  A continuation [k] stands for
    "the rest of the pattern": returning [None] makes the matcher
    backtrack into the last choice, as [sre] does. *)

Definition groups := list (nat * string).

Definition kont (A : Type) := nat -> string -> groups -> option A.

(** Greedy [a{lo,hi}]: take the next character when allowed, and fall
    back to stopping here when the rest of the pattern fails. *)
Fixpoint rep {A} (fl : flags) (a : atom) (lo : nat) (hi : option nat)
    (i : nat) (s : string) (g : groups) (k : kont A) {struct s} : option A :=
  let stop (_ : unit) := if (lo =? 0)%nat then k i s g else None in
  match hi with
  | Some 0 => stop tt
  | _ =>
      match s with
      | String c s' =>
          if atom_match fl a c
          then match rep fl a (pred lo) (option_map pred hi) (S i) s' g k with
               | Some m => Some m
               | None => stop tt
               end
          else stop tt
      | EmptyString => stop tt
      end
  end.

(** [$] without [re.MULTILINE]: at the end of the text, or just before a
    newline that ends the text. *)
Definition at_end (s : string) : bool :=
  match s with
  | EmptyString => true
  | String c EmptyString => Ascii.eqb c newline
  | _ => false
  end.

Fixpoint exec {A} (fl : flags) (r : regex)
    (i : nat) (s : string) (g : groups) (k : kont A) {struct r} : option A :=
  match r with
  | Eps => k i s g
  | One a =>
      match s with
      | String c s' => if atom_match fl a c then k (S i) s' g else None
      | EmptyString => None
      end
  | Rep a lo hi => rep fl a lo hi i s g k
  | Cat r1 r2 => exec fl r1 i s g (fun i' s' g' => exec fl r2 i' s' g' k)
  | Alt r1 r2 =>
      match exec fl r1 i s g k with
      | Some m => Some m
      | None => exec fl r2 i s g k
      end
  | Grp n r1 =>
      exec fl r1 i s g
        (fun i' s' g' => k i' s' ((n, substring 0 (i' - i) s) :: g'))
  | Bol => if (i =? 0)%nat then k i s g else None
  | Eol => if at_end s then k i s g else None
  end.

(** A match object: where the match starts and ends, and its groups. *)
Record match_obj := Match { m_start : nat; m_end : nat; m_groups : groups }.

(** [m.group(n)] for a group that took part in the match. *)
Fixpoint lookup_group (n : nat) (g : groups) : option string :=
  match g with
  | [] => None
  | (m, v) :: g' => if (m =? n)%nat then Some v else lookup_group n g'
  end.

Definition group (m : match_obj) (n : nat) : string :=
  match lookup_group n (m_groups m) with Some v => v | None => EmptyString end.

(** One attempt at index [i]. *)
Definition match_at (fl : flags) (r : regex) (i : nat) (s : string)
  : option match_obj :=
  exec fl r i s [] (fun j _ g => Some (Match i j g)).

(** Leftmost match at or after index [i]. *)
Fixpoint search_from (fl : flags) (r : regex) (i : nat) (s : string)
  : option match_obj :=
  match match_at fl r i s with
  | Some m => Some m
  | None =>
      match s with
      | String _ s' => search_from fl r (S i) s'
      | EmptyString => None
      end
  end.

(** All non-overlapping matches, left to right.  [skip] counts the
    characters still covered by the previous match.  (After an empty
    match the scan moves one character on; the one pattern the script
    hands to [re.findall] cannot match the empty string.) *)
Fixpoint scan (fl : flags) (r : regex) (skip i : nat) (s : string)
  : list match_obj :=
  match skip with
  | S skip' =>
      match s with
      | String _ s' => scan fl r skip' (S i) s'
      | EmptyString => []
      end
  | 0 =>
      match match_at fl r i s with
      | Some m =>
          m :: match s with
               | String _ s' => scan fl r (m_end m - m_start m - 1) (S i) s'
               | EmptyString => []
               end
      | None =>
          match s with
          | String _ s' => scan fl r 0 (S i) s'
          | EmptyString => []
          end
      end
  end.

(* --------------------------------------------------------------- *)
(** *** Compiling a pattern

    [re_compile] reads the pattern syntax the script uses: literals,
    backslash escapes, [.], bracketed sets with ranges and negation, the
    greedy quantifiers [*], [+], [?] and [{m,n}] on a one-character item,
    capture groups, [|], [^] and [$].  It answers [None] on anything
    else: lazy quantifiers, quantified groups, [(?...)], backreferences,
    and the patterns Python rejects. *)

Local Open Scope char_scope.

Definition is_ascii_alnum (c : ascii) : bool :=
  is_upper c || is_lower c || is_digit c.

Fixpoint read_digits (s : string) (acc : option nat) : option nat * string :=
  match s with
  | String c s' =>
      if is_digit c
      then read_digits s'
             (Some (10 * match acc with Some n => n | None => 0 end
                    + (nat_of_ascii c - 48)))
      else (acc, s)
  | EmptyString => (acc, s)
  end.

(** A quantifier at the head of [s], with what follows it.  A brace
    that does not open a well-formed [{m,n}] is no quantifier: Python
    reads it as a literal. *)
Definition parse_quant (s : string) : option (nat * option nat * string) :=
  match s with
  | String "*" s' => Some (0, None, s')
  | String "+" s' => Some (1, None, s')
  | String "?" s' => Some (0, Some 1, s')
  | String "{" (String "}" _) => None
  | String "{" s' =>
      let (lo, s1) := read_digits s' None in
      let (hi, s2) :=
        match s1 with
        | String "," s1' => read_digits s1' None
        | _ => (lo, s1)
        end in
      match s2 with
      | String "}" s3 =>
          Some (match lo with Some n => n | None => 0 end, hi, s3)
      | _ => None
      end
  | _ => None
  end.

Definition quant_ok (lo : nat) (hi : option nat) : bool :=
  match hi with Some h => (lo <=? h)%nat | None => true end.

(** True when [s] starts with something that would modify or repeat a
    quantifier or an item that cannot be repeated. *)
Definition quant_follows (s : string) : bool :=
  match parse_quant s with Some _ => true | None => false end.

(** The members of a set, up to the closing bracket. *)
Fixpoint parse_set (s : string) : option (list set_item * string) :=
  match s with
  | EmptyString => None
  | String "]" s' => Some ([], s')
  | String "\" (String x s') =>
      let it :=
        if Ascii.eqb x "s" then Some SSpace
        else if Ascii.eqb x "w" then Some SWord
        else if Ascii.eqb x "d" then Some SDigit
        else if is_ascii_alnum x then None
        else Some (SChar x) in
      match it with
      | None => None
      | Some i =>
          let continue :=
            match parse_set s' with
            | Some (l, r) => Some (i :: l, r)
            | None => None
            end in
          match s' with
          | String "-" (String "]" _) => continue
          | String "-" _ => None
          | _ => continue
          end
      end
  | String "\" EmptyString => None
  | String c (String "-" (String "]" s')) =>
      Some ([SChar c; SChar "-"], s')
  | String c (String "-" (String d s')) =>
      if Ascii.eqb d "\" || Ascii.eqb d "["
         || negb (nat_of_ascii c <=? nat_of_ascii d)%nat
      then None
      else match parse_set s' with
           | Some (l, r) => Some (SRange c d :: l, r)
           | None => None
           end
  | String c s' =>
      if Ascii.eqb c "[" then None
      else match parse_set s' with
           | Some (l, r) => Some (SChar c :: l, r)
           | None => None
           end
  end.

(** One single-character item at the head of [s]. *)
Definition parse_atom (s : string) : option (atom * string) :=
  match s with
  | EmptyString => None
  | String "\" (String x s') =>
      if Ascii.eqb x "s" then Some (ASpace, s')
      else if Ascii.eqb x "w" then Some (AWord, s')
      else if Ascii.eqb x "d" then Some (ADigit, s')
      else if is_ascii_alnum x then None
      else Some (ALit x, s')
  | String "\" EmptyString => None
  | String "." s' => Some (ADot, s')
  | String "[" (String "^" (String "]" _)) => None
  | String "[" (String "]" _) => None
  | String "[" (String "^" s') =>
      match parse_set s' with
      | Some (l, r) => Some (ASet true l, r)
      | None => None
      end
  | String "[" s' =>
      match parse_set s' with
      | Some (l, r) => Some (ASet false l, r)
      | None => None
      end
  | String c s' =>
      if quant_follows s then None else Some (ALit c, s')
  end.

Definition parsed := option (regex * nat * string).

(** A sequence of items, up to [|], [)] or the end; [n] is the number
    of groups opened so far. *)
Fixpoint parse_seq (fuel n : nat) (s : string) {struct fuel} : parsed :=
  match fuel with
  | 0 => None
  | S fuel' =>
      let then_seq (item : regex) (n' : nat) (rest : string) : parsed :=
        match parse_seq fuel' n' rest with
        | Some (r, n'', rest') => Some (Cat item r, n'', rest')
        | None => None
        end in
      match s with
      | EmptyString => Some (Eps, n, s)
      | String "|" _ | String ")" _ => Some (Eps, n, s)
      | String "(" (String "?" _) => None
      | String "(" s' =>
          match parse_alt fuel' (S n) s' with
          | Some (r, n', String ")" s'') =>
              if quant_follows s'' then None
              else then_seq (Grp (S n) r) n' s''
          | _ => None
          end
      | String "^" s' => if quant_follows s' then None else then_seq Bol n s'
      | String "$" s' => if quant_follows s' then None else then_seq Eol n s'
      | _ =>
          match parse_atom s with
          | Some (a, s1) =>
              match parse_quant s1 with
              | Some (lo, hi, s2) =>
                  if quant_ok lo hi && negb (quant_follows s2)
                  then then_seq (Rep a lo hi) n s2
                  else None
              | None => then_seq (One a) n s1
              end
          | None => None
          end
      end
  end

with parse_alt (fuel n : nat) (s : string) {struct fuel} : parsed :=
  match fuel with
  | 0 => None
  | S fuel' =>
      match parse_seq fuel' n s with
      | Some (r1, n1, String "|" s1) =>
          match parse_alt fuel' n1 s1 with
          | Some (r2, n2, s2) => Some (Alt r1 r2, n2, s2)
          | None => None
          end
      | other => other
      end
  end.

Local Close Scope char_scope.

Definition re_compile (pattern : string) : option regex :=
  match parse_alt (2 * String.length pattern + 2) 0 pattern with
  | Some (r, _, EmptyString) => Some r
  | _ => None
  end.

(* --------------------------------------------------------------- *)
(** *** The functions of the module

    Each takes the pattern as text, like the Python function.  A
    pattern outside the fragment gives no match; [patterns_compile]
    below shows that every pattern of the script is inside it. *)

(** [re.search(pattern, string, flags)] *)
Definition re_search (pattern text : string) (fl : flags) : option match_obj :=
  match re_compile pattern with
  | Some r => search_from fl r 0 text
  | None => None
  end.

(** [re.match(pattern, string)] *)
Definition re_match (pattern text : string) : option match_obj :=
  match re_compile pattern with
  | Some r => match_at NOFLAGS r 0 text
  | None => None
  end.

(** [re.findall(pattern, string)] for a pattern with two groups: the
    pairs of the two groups of each match. *)
Definition re_findall (pattern text : string) : list (string * string) :=
  match re_compile pattern with
  | Some r => map (fun m => (group m 1, group m 2)) (scan NOFLAGS r 0 0 text)
  | None => []
  end.

(** Truth value of a match result. *)
Definition found (m : option match_obj) : bool :=
  match m with Some _ => true | None => false end.

End Re.

(* ================================================================= *)
(** ** The checker *)

Module Checker.
Import Text Re.

(** *** The object and its rule tables *)

(** [self.errors] and [self.warnings]: the findings, as the formatted
    lines the script stores.  The bucket a line sits in is its
    severity. *)
Record AzureConfigChecker := Self {
  errors : list string;
  warnings : list string
}.

(** [AzureConfigChecker()]: both lists start empty. *)
Definition __init__ : AzureConfigChecker := Self [] [].

(** [self.errors.append(x)], [self.warnings.append(x)] *)
Definition errors_append (self : AzureConfigChecker) (x : string) :=
  Self (errors self ++ [x])%list (warnings self).
Definition warnings_append (self : AzureConfigChecker) (x : string) :=
  Self (errors self) (warnings self ++ [x])%list.

(** A value of [self.security_rules].  The keys ['invert'] and
    ['required'] are optional in the dictionaries of the script. *)
Record rule_config := Rule {
  pattern : string;
  message : string;
  severity : string;
  required : option bool;
  invert : option bool
}.

(** [d.get(key, default)] on an optional key. *)
Definition get {A} (field : option A) (default : A) : A :=
  match field with Some v => v | None => default end.

(** Dictionaries whose order or lookup matters are association lists in
    insertion order, which is the iteration order of a Python [dict]. *)
Fixpoint dict_get {V} (d : list (string * V)) (key : string) : option V :=
  match d with
  | [] => None
  | (k, v) :: d' => if String.eqb k key then Some v else dict_get d' key
  end.

Definition security_rules : list (string * rule_config) :=
  [ ("key_vault_access_policies",
     Rule "accessPolicies.*permissions.*secrets.*\[.*get.*list.*\]"
          "Key Vault should use least privilege access policies"
          "warning" None None);
    ("storage_account_secure_transfer",
     Rule "supportsHttpsTrafficOnly.*true"
          "Storage accounts should require secure transfer (HTTPS)"
          "error" (Some true) None);
    ("app_service_https_only",
     Rule "httpsOnly.*true"
          "App Services should enforce HTTPS only"
          "error" (Some true) None);
    ("managed_identity",
     Rule "identity.*type.*SystemAssigned|UserAssigned"
          "Resources should use managed identity instead of service principals"
          "warning" None None);
    ("network_security_groups",
     Rule "securityRules.*access.*Allow.*\*.*\*"
          "NSG rules should not allow unrestricted access (*:*)"
          "error" None (Some true));
    ("sql_server_firewall",
     Rule "firewallRules.*startIpAddress.*0\.0\.0\.0.*endIpAddress.*255\.255\.255\.255"
          "SQL Server should not allow unrestricted firewall access (0.0.0.0-255.255.255.255)"
          "error" None (Some true)) ].

Definition naming_rules : list (string * string) :=
  [ ("resource_group", "^rg-[a-z0-9-]+$");
    ("storage_account", "^st[a-z0-9]{3,22}$");
    ("key_vault", "^kv-[a-z0-9-]+$");
    ("app_service", "^app-[a-z0-9-]+$");
    ("app_service_plan", "^asp-[a-z0-9-]+$");
    ("sql_server", "^sql-[a-z0-9-]+$");
    ("cosmos_db", "^cosmos-[a-z0-9-]+$") ].

(* --------------------------------------------------------------- *)
(** *** [_check_security_rules] *)

(** The body of the loop over [self.security_rules.items()]. *)
Definition security_rule_step (content file_path : string)
    (self : AzureConfigChecker) (item : string * rule_config)
  : AzureConfigChecker :=
  let rule_config := snd item in
  let pattern := pattern rule_config in
  let message := message rule_config in
  let severity := severity rule_config in
  let invert := get (invert rule_config) false in
  let required := get (required rule_config) false in
  let matches := re_search pattern content (flag_or IGNORECASE DOTALL) in
  if invert then
    if found matches then
      if String.eqb severity "error"
      then errors_append self (file_path ++ ": " ++ message)
      else warnings_append self (file_path ++ ": " ++ message)
    else self
  else
    if negb (found matches) && required then
      if String.eqb severity "error"
      then errors_append self (file_path ++ ": " ++ message)
      else warnings_append self (file_path ++ ": " ++ message)
    else self.

Definition _check_security_rules (content file_path : string)
    (self : AzureConfigChecker) : AzureConfigChecker :=
  fold_left (security_rule_step content file_path) security_rules self.

(* --------------------------------------------------------------- *)
(** *** [_check_naming_conventions] *)

Definition resource_pattern : string :=
  "resource\s+(\w+)\s+'([^']+)'\s+=\s+{".

Definition type_mapping : list (string * string) :=
  [ ("Microsoft.Resources/resourceGroups", "resource_group");
    ("Microsoft.Storage/storageAccounts", "storage_account");
    ("Microsoft.KeyVault/vaults", "key_vault");
    ("Microsoft.Web/sites", "app_service");
    ("Microsoft.Web/serverfarms", "app_service_plan");
    ("Microsoft.Sql/servers", "sql_server");
    ("Microsoft.DocumentDB/databaseAccounts", "cosmos_db") ].

Definition name_pattern : string := "name:\s*'([^']+)'".

(** The warning line of the naming check. *)
Definition naming_warning (file_path resource_name resource_type pattern : string)
  : string :=
  file_path ++ ": Resource '" ++ resource_name ++ "' of type '"
    ++ resource_type ++ "' " ++ "should follow naming convention: " ++ pattern.

(** The body of the loop over the declarations found.  The name is
    searched in [content], the whole document, on every turn. *)
Definition naming_step (content file_path : string)
    (self : AzureConfigChecker) (resource : string * string)
  : AzureConfigChecker :=
  let (resource_name, resource_type) := resource in
  let naming_type := dict_get type_mapping resource_type in
  match naming_type with
  | Some naming_type =>
      match negb (String.eqb naming_type EmptyString), dict_get naming_rules naming_type with
      | true, Some pattern =>
          let name_match := re_search name_pattern content NOFLAGS in
          match name_match with
          | Some m =>
              let resource_actual_name := group m 1 in
              if negb (found (re_match pattern resource_actual_name))
              then warnings_append self
                     (naming_warning file_path resource_name resource_type
                        pattern)
              else self
          | None => self
          end
      | _, _ => self
      end
  | None => self
  end.

Definition _check_naming_conventions (content file_path : string)
    (self : AzureConfigChecker) : AzureConfigChecker :=
  let resources := re_findall resource_pattern content in
  fold_left (naming_step content file_path) resources self.

(* --------------------------------------------------------------- *)
(** *** [_check_hardcoded_values] *)

(** The common tail of the five patterns: an assignment sign, a quote
    character, a run of characters that are not quotes, and a quote
    character, with [q] the quantifier on the run. *)
Definition quoted_tail (q : string) : string :=
  ".*[:=].*[\'" ++ dq ++ "][^\'" ++ dq ++ "]" ++ q ++ "[\'" ++ dq ++ "]".

Definition hardcoded_patterns : list (string * string) :=
  [ ("password" ++ quoted_tail "{8,}", "Possible hardcoded password");
    ("connectionString" ++ quoted_tail "+",
     "Possible hardcoded connection string");
    ("apiKey" ++ quoted_tail "+", "Possible hardcoded API key");
    ("secret" ++ quoted_tail "+", "Possible hardcoded secret");
    ("token" ++ quoted_tail "+", "Possible hardcoded token") ].

Definition hardcoded_step (content file_path : string)
    (self : AzureConfigChecker) (item : string * string)
  : AzureConfigChecker :=
  let (pattern, message) := item in
  if found (re_search pattern content IGNORECASE)
  then errors_append self (file_path ++ ": " ++ message)
  else self.

Definition _check_hardcoded_values (content file_path : string)
    (self : AzureConfigChecker) : AzureConfigChecker :=
  fold_left (hardcoded_step content file_path) hardcoded_patterns self.

(* --------------------------------------------------------------- *)
(** *** [_check_resource_dependencies] *)

Definition access_policy_warning (file_path : string) : string :=
  file_path
    ++ ": Resources using Key Vault should have proper access policies defined".

Definition vnet_warning (file_path : string) : string :=
  file_path
    ++ ": App Services should consider VNet integration for enhanced security".

Definition _check_resource_dependencies (content file_path : string)
    (self : AzureConfigChecker) : AzureConfigChecker :=
  let self :=
    if contains "Microsoft.KeyVault/vaults" content then
      if contains "Microsoft.Web/sites" content
         || contains "Microsoft.ContainerInstance/containerGroups" content
      then
        if negb (contains "accessPolicies" content)
        then warnings_append self (access_policy_warning file_path)
        else self
      else self
    else self in
  if contains "Microsoft.Web/sites" content then
    if negb (contains "vnetRouteAllEnabled" content)
    then warnings_append self (vnet_warning file_path)
    else self
  else self.

(* --------------------------------------------------------------- *)
(** *** [check_file], [print_results] and [main]

    The file system is a function from paths to what [open] and [read]
    give: the decoded text, or the exception they raise, kept as its
    [str(e)].  What the process does to the outside is a trace of
    events. *)

Inductive read_result :=
| Text (content : string)
| Raises (reason : string).

Definition filesystem := string -> read_result.

Inductive event :=
| Open (path : string)
| Print (line : string).

Definition check_file (fs : filesystem) (file_path : string)
    (self : AzureConfigChecker) : bool * AzureConfigChecker * list event :=
  match fs file_path with
  | Text content =>
      let self := _check_security_rules content file_path self in
      let self := _check_naming_conventions content file_path self in
      let self := _check_hardcoded_values content file_path self in
      let self := _check_resource_dependencies content file_path self in
      (Nat.eqb (List.length (errors self)) 0, self,
       [Open file_path; Print ("Checking " ++ file_path ++ "...")])
  | Raises e =>
      (false,
       errors_append self ("Error reading " ++ file_path ++ ": " ++ e),
       [Open file_path])
  end.

(** The decorative glyphs of the headings are kept as the bytes of the
    script's text. *)
Definition print_results (self : AzureConfigChecker) : bool * list event :=
  let out1 :=
    match errors self with
    | [] => []
    | _ => Print (nl ++ "‚ùå ERRORS:")
           :: map (fun error => Print ("  " ++ error)) (errors self)
    end in
  let out2 :=
    match warnings self with
    | [] => []
    | _ => Print (nl ++ "‚ö†Ô∏è  WARNINGS:")
           :: map (fun warning => Print ("  " ++ warning)) (warnings self)
    end in
  let out3 :=
    match errors self, warnings self with
    | [], [] => [Print (nl ++ "‚úÖ All checks passed!")]
    | _, _ => []
    end in
  (Nat.eqb (List.length (errors self)) 0, (out1 ++ out2 ++ out3)%list).

Definition tips : list event :=
  [ Print (nl ++ "üí° Tips:");
    Print "  - Use Azure Key Vault for secrets management";
    Print "  - Enable HTTPS-only for web applications";
    Print "  - Use managed identities instead of service principals";
    Print "  - Follow Azure naming conventions";
    Print "  - Avoid hardcoded secrets in templates" ].

(** The state of the loop of [main]: the checker, [all_passed] and the
    trace so far. *)
Definition main_step (fs : filesystem)
    (st : AzureConfigChecker * bool * list event) (file_path : string)
  : AzureConfigChecker * bool * list event :=
  let '(checker, all_passed, trace) := st in
  if negb (endswith file_path ".bicep") then st
  else
    let '(ok, checker, out) := check_file fs file_path checker in
    (checker, if negb ok then false else all_passed, (trace ++ out)%list).

Definition usage : string :=
  "Usage: python azure-config-check.py <file1> [file2] ...".

(** [main], on [sys.argv] (the script's own name first): the trace of
    the run and the status handed to [sys.exit]. *)
Definition main (fs : filesystem) (argv : list string) : list event * nat :=
  if (List.length argv <? 2)%nat then ([Print usage], 1)
  else
    let '(checker, all_passed, trace) :=
      fold_left (main_step fs) (tl argv) (__init__, true, []) in
    let (success, out) := print_results checker in
    if negb success
    then ((trace ++ out ++ tips)%list, 1)
    else ((trace ++ out)%list, 0).

End Checker.

Import Text Re Checker.

(* ================================================================= *)
(** ** Vocabulary of the properties *)

(** The substring test of the script is what its name says. *)
Definition occurs_in (needle hay : string) : Prop :=
  exists before after, hay = before ++ needle ++ after.

(** [appends f]: the pass [f] leaves the findings already recorded in
    place and adds, behind them, findings that do not depend on them. *)
Definition appends (f : AzureConfigChecker -> AzureConfigChecker) : Prop :=
  forall self,
    f self = Self (errors self ++ errors (f __init__))%list
                  (warnings self ++ warnings (f __init__))%list.

(** The checker object after [check_file]. *)
Definition checked (fs : filesystem) (file_path : string)
    (self : AzureConfigChecker) : AzureConfigChecker :=
  snd (fst (check_file fs file_path self)).

(** What [check_file] returns. *)
Definition returned (fs : filesystem) (file_path : string)
    (self : AzureConfigChecker) : bool :=
  fst (fst (check_file fs file_path self)).

(** The arguments [main] hands to [check_file]. *)
Definition qualifying (argv : list string) : list string :=
  filter (fun file_path => endswith file_path ".bicep") (tl argv).

(** The checker object when the loop of [main] is over. *)
Definition final_checker (fs : filesystem) (argv : list string)
  : AzureConfigChecker :=
  fst (fst (fold_left (main_step fs) (tl argv) (__init__, true, []))).

(** What one file adds to the two lists and to the trace. *)
Definition file_errors (fs : filesystem) (file_path : string) : list string :=
  errors (checked fs file_path __init__).
Definition file_warnings (fs : filesystem) (file_path : string) : list string :=
  warnings (checked fs file_path __init__).
Definition file_events (fs : filesystem) (file_path : string) : list event :=
  snd (check_file fs file_path __init__).

(** How often a line occurs in a list of findings. *)
Definition count (l : list string) (line : string) : nat :=
  count_occ string_dec l line.

(** [records self self' sev line n]: from [self] to [self'] the line was
    recorded [n] more times in the list of severity [sev] (the error
    list for ['error'], the warning list otherwise) and not in the other
    list. *)
Definition records (self self' : AzureConfigChecker) (sev line : string)
    (n : nat) : Prop :=
  if String.eqb sev "error"
  then count (errors self') line = count (errors self) line + n
       /\ count (warnings self') line = count (warnings self) line
  else count (warnings self') line = count (warnings self) line + n
       /\ count (errors self') line = count (errors self) line.

(** Whether an optional result is there. *)
Definition succeeds {A} (o : option A) : bool :=
  match o with Some _ => true | None => false end.

(** A keyword that the document holds, but never in the letter case of
    the keyword itself. *)
Definition other_case_only (keyword content : string) : Prop :=
  ~ occurs_in keyword content
  /\ occurs_in (lowercase keyword) (lowercase content).

(** Two continuations, one run on the lowered text, that succeed
    together. *)
Definition alike {A B} (k' : kont A) (k : kont B) : Prop :=
  forall i s g' g, succeeds (k' i (lowercase s) g') = succeeds (k i s g).

(** The five keywords [_check_resource_dependencies] looks for. *)
Definition dependency_keywords : list string :=
  [ "Microsoft.KeyVault/vaults"; "Microsoft.Web/sites";
    "Microsoft.ContainerInstance/containerGroups"; "accessPolicies";
    "vnetRouteAllEnabled" ].

(** Every character of [s] is one the atom matches. *)
Fixpoint all_match (fl : flags) (a : atom) (s : string) : bool :=
  match s with
  | EmptyString => true
  | String c s' => atom_match fl a c && all_match fl a s'
  end.

(** What a pattern means, without the search order of the matcher:
    [matches fl r i s1 s2 g g'] says that [r], standing at index [i] of a
    text, covers [s1] when [s2] follows it, and turns the groups [g]
    into [g']. *)
Fixpoint matches (fl : flags) (r : regex) (i : nat) (s1 s2 : string)
    (g g' : groups) : Prop :=
  match r with
  | Eps => s1 = EmptyString /\ g' = g
  | One a =>
      exists c, s1 = String c EmptyString /\ atom_match fl a c = true /\ g' = g
  | Rep a lo hi =>
      all_match fl a s1 = true
      /\ lo <= String.length s1
      /\ match hi with Some h => String.length s1 <= h | None => True end
      /\ g' = g
  | Cat r1 r2 =>
      exists u v gm,
        s1 = u ++ v
        /\ matches fl r1 i u (v ++ s2) g gm
        /\ matches fl r2 (i + String.length u) v s2 gm g'
  | Alt r1 r2 => matches fl r1 i s1 s2 g g' \/ matches fl r2 i s1 s2 g g'
  | Grp n r1 => exists gm, matches fl r1 i s1 s2 g gm /\ g' = (n, s1) :: gm
  | Bol => s1 = EmptyString /\ i = 0 /\ g' = g
  | Eol => s1 = EmptyString /\ at_end s2 = true /\ g' = g
  end.

(** The pattern occurs in the text at index [i], with these groups. *)
Definition occurs_at (fl : flags) (r : regex) (text : string) (i : nat)
    (m : match_obj) : Prop :=
  exists before s1 s2,
    text = before ++ s1 ++ s2
    /\ String.length before = i
    /\ matches fl r i s1 s2 [] (m_groups m)
    /\ m_start m = i
    /\ m_end m = i + String.length s1.

(** The pattern occurs in the text at index [i]. *)
Definition occurs_from (fl : flags) (r : regex) (text : string) (i : nat)
  : Prop :=
  exists before s1 s2 g,
    text = before ++ s1 ++ s2
    /\ String.length before = i
    /\ matches fl r i s1 s2 [] g.

(** Every character of [s] satisfies [p]. *)
Fixpoint string_forall (p : ascii -> bool) (s : string) : bool :=
  match s with
  | EmptyString => true
  | String c s' => p c && string_forall p s'
  end.

(** A pattern that starts with the literal text [w]. *)
Fixpoint lit_seq (w : string) (rest : regex) : regex :=
  match w with
  | EmptyString => rest
  | String c w' => Cat (One (ALit c)) (lit_seq w' rest)
  end.

(** The text [kw] is the literal [w], up to letter case under
    [re.IGNORECASE]. *)
Definition same_text (fl : flags) (kw w : string) : Prop :=
  if ignorecase fl then lowercase kw = lowercase w else kw = w.

(** The name the naming check validates: group 1 of the first match of
    [name_pattern] in the document. *)
Definition first_name (content : string) : option string :=
  match re_search name_pattern content NOFLAGS with
  | Some m => Some (group m 1)
  | None => None
  end.

(** The naming pattern a resource type is held to, if any. *)
Definition naming_category (resource_type : string) : option string :=
  match dict_get type_mapping resource_type with
  | Some naming_type => dict_get naming_rules naming_type
  | None => None
  end.

(** The warning, if any, for one declaration when [name] is the name
    validated. *)
Definition declaration_warning (file_path : string) (name : option string)
    (resource : string * string) : list string :=
  match naming_category (snd resource), name with
  | Some pattern, Some value =>
      if found (re_match pattern value) then []
      else [naming_warning file_path (fst resource) (snd resource) pattern]
  | _, _ => []
  end.

Definition not_squote (c : ascii) : bool := negb (Ascii.eqb c squote).

(** A [name: '<value>'] property that starts right after [before]. *)
Definition name_property_at (content before value : string) : Prop :=
  exists spaces after,
    content = before ++ "name:" ++ spaces ++ "'" ++ value ++ "'" ++ after
    /\ string_forall is_space spaces = true
    /\ value <> EmptyString
    /\ string_forall not_squote value = true.

(** [name_pattern], compiled. *)
Definition name_regex : regex :=
  lit_seq "name:"
    (Cat (Rep ASpace 0 None)
       (Cat (One (ALit squote))
          (Cat (Grp 1 (Cat (Rep (ASet true [SChar squote]) 1 None) Eps))
             (Cat (One (ALit squote)) Eps)))).

Definition is_quote (c : ascii) : bool :=
  Ascii.eqb c squote || Ascii.eqb c dquote.
Definition not_quote (c : ascii) : bool := negb (is_quote c).
Definition is_sign (c : ascii) : bool :=
  Ascii.eqb c ":" || Ascii.eqb c "=".
Definition not_newline (c : ascii) : bool := negb (Ascii.eqb c newline).

(** What the patterns of the hardcoded-value check look for: the keyword
    in any letter case; then, on the same line, a colon or an equals
    sign; then, still on that line, a quote character, single or double;
    then [n] characters or more none of which is a quote character
    (newlines may be among them); then a quote character, again single
    or double.  The two quote characters need not be of the same kind,
    and the first need not open a literal: the text between the end of
    one literal and the start of the next is such a run as well. *)
Definition quoted_run_after (keyword : string) (n : nat) (content : string)
  : Prop :=
  exists before kw gap1 sign gap2 q1 body q2 after,
    content
    = before ++ kw ++ gap1
        ++ String sign (gap2 ++ String q1 (body ++ String q2 after))
    /\ lowercase kw = lowercase keyword
    /\ string_forall not_newline gap1 = true
    /\ is_sign sign = true
    /\ string_forall not_newline gap2 = true
    /\ is_quote q1 = true
    /\ string_forall not_quote body = true
    /\ n <= String.length body
    /\ is_quote q2 = true.

(** The five keywords of the hardcoded-value check, with the least
    length of the literal and the message. *)
Definition hardcoded_keywords : list (string * nat * string) :=
  [ ("password", 8, "Possible hardcoded password");
    ("connectionString", 1, "Possible hardcoded connection string");
    ("apiKey", 1, "Possible hardcoded API key");
    ("secret", 1, "Possible hardcoded secret");
    ("token", 1, "Possible hardcoded token") ].

(** [quoted_tail], compiled, with [n] the least number of repetitions. *)
Definition quoted_tail_regex (n : nat) : regex :=
  Cat (Rep ADot 0 None)
    (Cat (One (ASet false [SChar ":"; SChar "="]))
       (Cat (Rep ADot 0 None)
          (Cat (One (ASet false [SChar squote; SChar dquote]))
             (Cat (Rep (ASet true [SChar squote; SChar dquote]) n None)
                (Cat (One (ASet false [SChar squote; SChar dquote])) Eps))))).

(** Every pattern the script hands to [re]. *)
Definition script_patterns : list string :=
  (map (fun item => pattern (snd item)) security_rules
   ++ map snd naming_rules
   ++ [resource_pattern; name_pattern]
   ++ map fst hardcoded_patterns)%list.

(** The paths a trace opens, in order. *)
Fixpoint opened (trace : list event) : list string :=
  match trace with
  | [] => []
  | Open path :: trace' => path :: opened trace'
  | Print _ :: trace' => opened trace'
  end.

(** The success line of [print_results] and the heading of the tips of
    [main]. *)
Definition success_line : string := nl ++ "‚úÖ All checks passed!".
Definition tips_heading : string := nl ++ "üí° Tips:".

(** The pattern [w1.*w2.*...wn] of literal words. *)
Fixpoint chain_regex (ws : list string) : regex :=
  match ws with
  | [] => Eps
  | w :: ws' =>
      lit_seq w
        match ws' with
        | [] => Eps
        | _ :: _ => Cat (Rep ADot 0 None) (chain_regex ws')
        end
  end.

(** The text holds the words one after the other, in this order, each
    in any letter case, with anything (newlines too) before and between
    them. *)
Fixpoint in_order (ws : list string) (s : string) : Prop :=
  match ws with
  | [] => True
  | w :: ws' =>
      exists gap kw rest,
        s = gap ++ kw ++ rest
        /\ lowercase kw = lowercase w
        /\ in_order ws' rest
  end.

(** The four security rules that can record something: the words of
    the pattern, whether the rule is inverted, and the message. *)
Definition security_chains : list (list string * bool * string) :=
  [ (["supportsHttpsTrafficOnly"; "true"], false,
     "Storage accounts should require secure transfer (HTTPS)");
    (["httpsOnly"; "true"], false,
     "App Services should enforce HTTPS only");
    (["securityRules"; "access"; "Allow"; "*"; "*"], true,
     "NSG rules should not allow unrestricted access (*:*)");
    (["firewallRules"; "startIpAddress"; "0.0.0.0"; "endIpAddress";
      "255.255.255.255"], true,
     "SQL Server should not allow unrestricted firewall access (0.0.0.0-255.255.255.255)") ].

(** The characters the naming rules allow after the prefix. *)
Definition lower_alnum (c : ascii) : bool := is_lower c || is_digit c.
Definition lower_alnum_hyphen (c : ascii) : bool :=
  lower_alnum c || Ascii.eqb c "-".

(** A name a naming rule accepts: the prefix, then a body of allowed
    characters whose length is within the bounds, and maybe one newline
    at the very end. *)
Definition valid_name (prefix : string) (allowed : ascii -> bool)
    (lo : nat) (hi : option nat) (value : string) : Prop :=
  exists body,
    (value = prefix ++ body \/ value = prefix ++ body ++ nl)
    /\ lo <= String.length body
    /\ match hi with Some h => String.length body <= h | None => True end
    /\ string_forall allowed body = true.

(** A naming rule, compiled: [^prefix set{lo,hi}$]. *)
Definition name_rule_regex (prefix : string) (set : atom) (lo : nat)
    (hi : option nat) : regex :=
  Cat Bol (lit_seq prefix (Cat (Rep set lo hi) (Cat Eol Eps))).

(** The naming categories whose rule is a prefix and a body that may
    hold hyphens. *)
Definition hyphenated_rules : list (string * string) :=
  [ ("resource_group", "rg-"); ("key_vault", "kv-"); ("app_service", "app-");
    ("app_service_plan", "asp-"); ("sql_server", "sql-");
    ("cosmos_db", "cosmos-") ].

(** [resource_pattern], compiled. *)
Definition resource_regex : regex :=
  lit_seq "resource"
    (Cat (Rep ASpace 1 None)
       (Cat (Grp 1 (Cat (Rep AWord 1 None) Eps))
          (Cat (Rep ASpace 1 None)
             (Cat (One (ALit squote))
                (Cat (Grp 2 (Cat (Rep (ASet true [SChar squote]) 1 None) Eps))
                   (Cat (One (ALit squote))
                      (Cat (Rep ASpace 1 None)
                         (Cat (One (ALit "="))
                            (Cat (Rep ASpace 1 None)
                               (Cat (One (ALit "{")) Eps)))))))))).

(** Some white space. *)
Definition blank (s : string) : Prop :=
  s <> EmptyString /\ string_forall is_space s = true.

(** A declaration [resource <name> '<type>' = {] that starts right
    after [before]. *)
Definition declaration_at (content before name type : string) : Prop :=
  exists ws1 ws2 ws3 ws4 after,
    content
    = before
        ++ ("resource" ++ ws1 ++ name ++ ws2 ++ "'" ++ type ++ "'" ++ ws3
              ++ "=" ++ ws4 ++ "{")
        ++ after
    /\ blank ws1 /\ blank ws2 /\ blank ws3 /\ blank ws4
    /\ name <> EmptyString /\ string_forall is_word name = true
    /\ type <> EmptyString /\ string_forall not_squote type = true.

(** The text holds a quoted literal of [n] characters or more, read as
    generously as can be: a quote character, [n] or more characters
    that are not quotes, and the same quote character again. *)
Definition literal_of_length (n : nat) (content : string) : Prop :=
  exists before q body after,
    content = before ++ String q (body ++ String q after)
    /\ is_quote q = true
    /\ string_forall not_quote body = true
    /\ n <= String.length body.

(** The pattern of such a literal, between single or between double
    quotes. *)
Definition literal_regex (n : nat) : regex :=
  let run := Rep (ASet true [SChar squote; SChar dquote]) n None in
  Alt (Cat (One (ALit squote)) (Cat run (One (ALit squote))))
      (Cat (One (ALit dquote)) (Cat run (One (ALit dquote)))).

(* ================================================================= *)
(** ** Sample documents and file systems *)

(** Lines of a document, each ended by a newline. *)
Fixpoint lines (l : list string) : string :=
  match l with
  | [] => EmptyString
  | x :: l' => x ++ nl ++ lines l'
  end.

(** A template that passes every check. *)
Definition doc_clean : string :=
  lines [ "supportsHttpsTrafficOnly: true"; "httpsOnly: true" ].

(** The same template without [httpsOnly]. *)
Definition doc_no_https : string :=
  lines [ "supportsHttpsTrafficOnly: true" ].

(** A disk with two readable templates; any other path cannot be read. *)
Definition disk : filesystem :=
  fun path =>
    if String.eqb path "clean.bicep" then Text doc_clean
    else if String.eqb path "nohttps.bicep" then Text doc_no_https
    else Raises "[Errno 2] No such file or directory".

(** Another disk, where every path holds the template without
    [httpsOnly]. *)
Definition other_disk : filesystem := fun _ => Text doc_no_https.

(** A key vault and a web app, without access policies. *)
Definition doc_vault_and_site : string :=
  lines [ "resource kv 'Microsoft.KeyVault/vaults@2023-02-01' = {";
          "  name: 'kv-main'";
          "}";
          "resource app 'Microsoft.Web/sites@2022-09-01' = {";
          "  name: 'app-main'";
          "}" ].

(** The same, with an access-policy block. *)
Definition doc_vault_and_site_with_policies : string :=
  doc_vault_and_site ++ lines [ "// accessPolicies: []" ].

(** The same again, with every letter lowered. *)
Definition doc_vault_and_site_lowered : string :=
  lowercase doc_vault_and_site.

(** A key vault and a web app, where the access-policy and the routing
    keyword are spelled in capitals only. *)
Definition doc_keywords_in_capitals : string :=
  doc_vault_and_site
    ++ lines [ "// ACCESSPOLICIES: []"; "// VNETROUTEALLENABLED: true" ].

(** One storage account, with the declared name to choose. *)
Definition doc_storage (name : string) : string :=
  lines [ "resource sa 'Microsoft.Storage/storageAccounts' = {";
          "  name: '" ++ name ++ "'";
          "  location: 'westeurope'";
          "}" ].

(** A storage account with a good name, then a key vault with a good
    name of its own. *)
Definition doc_two_resources : string :=
  lines [ "resource sa 'Microsoft.Storage/storageAccounts' = {";
          "  name: 'st123'";
          "}";
          "resource kv 'Microsoft.KeyVault/vaults' = {";
          "  name: 'kv-main'";
          "}" ].

(** The one line [password = "<literal>"]. *)
Definition doc_password (literal : string) : string :=
  lines [ "password = " ++ dq ++ literal ++ dq ].

(** The one line [<keyword> = "<literal>"]. *)
Definition doc_assignment (keyword literal : string) : string :=
  lines [ keyword ++ " = " ++ dq ++ literal ++ dq ].

(** [httpsOnly] switched off, and a [true] two lines later. *)
Definition doc_https_off : string :=
  lines [ "httpsOnly: false"; "supportsHttpsTrafficOnly: true" ].

(** A storage account without a [name] property. *)
Definition doc_unnamed : string :=
  lines [ "resource sa 'Microsoft.Storage/storageAccounts' = {";
          "  location: 'westeurope'";
          "}" ].

(** A password of three characters, and a quoted value on the next
    line. *)
Definition doc_short_password : string :=
  lines [ "password = " ++ dq ++ "abc" ++ dq; "location: 'west'" ].

(* ================================================================= *)
(** ** Facts about strings *)

Section StringFacts.

Lemma append_nil_r (s : string) : s ++ EmptyString = s.
Proof. induction s as [|c s IH]; simpl; [reflexivity | now rewrite IH]. Qed.

Lemma append_assoc (a b c : string) : (a ++ b) ++ c = a ++ (b ++ c).
Proof. induction a as [|x a IH]; simpl; [reflexivity | now rewrite IH]. Qed.

Lemma append_inv_head (p a b : string) : p ++ a = p ++ b -> a = b.
Proof.
  induction p as [|c p IH]; simpl; intros H; [exact H|].
  injection H as H. now apply IH.
Qed.

Lemma length_append (a b : string) :
  String.length (a ++ b) = String.length a + String.length b.
Proof. induction a as [|x a IH]; simpl; [reflexivity | now rewrite IH]. Qed.

Lemma startswith_spec (s p : string) :
  startswith s p = true <-> exists t, s = p ++ t.
Proof.
  revert s. induction p as [|a p IH]; intros s; simpl.
  - split; [intros _; now exists s | reflexivity].
  - destruct s as [|b s].
    + split; [discriminate | intros [t Ht]; discriminate].
    + rewrite andb_true_iff, Ascii.eqb_eq, IH. split.
      * intros [-> [t ->]]. now exists t.
      * intros [t Ht]. injection Ht as -> ->. split; [reflexivity | now exists t].
Qed.


Lemma contains_spec (needle hay : string) :
  contains needle hay = true <-> occurs_in needle hay.
Proof.
  unfold occurs_in. induction hay as [|c hay IH].
  - simpl. rewrite orb_false_r, startswith_spec. split.
    + intros [t Ht]. now exists EmptyString, t.
    + intros [[|x b] [a Ha]]; [now exists a | discriminate].
  - cbn [contains]. rewrite orb_true_iff, startswith_spec, IH. split.
    + intros [[t Ht] | [b [a Ha]]].
      * now exists EmptyString, t.
      * exists (String c b), a. simpl. now rewrite Ha.
    + intros [[|x b] [a Ha]].
      * left. now exists a.
      * right. simpl in Ha. injection Ha as _ Ha. now exists b, a.
Qed.

Lemma contains_absent (needle hay : string) :
  contains needle hay = false <-> ~ occurs_in needle hay.
Proof.
  rewrite <- contains_spec. destruct (contains needle hay); split.
  - discriminate.
  - intros H. now exfalso.
  - intros _ E. discriminate.
  - reflexivity.
Qed.

End StringFacts.

(* ================================================================= *)
(** ** The checks only ever append findings *)

Section Appending.


Lemma appends_skip : appends (fun self => self).
Proof. intros [e w]; simpl. now rewrite !app_nil_r. Qed.

Lemma appends_error (x : string) : appends (fun self => errors_append self x).
Proof. intros [e w]; unfold errors_append; simpl. now rewrite app_nil_r. Qed.

Lemma appends_warning (x : string) :
  appends (fun self => warnings_append self x).
Proof. intros [e w]; unfold warnings_append; simpl. now rewrite app_nil_r. Qed.

Lemma appends_then (f g : AzureConfigChecker -> AzureConfigChecker) :
  appends f -> appends g -> appends (fun self => g (f self)).
Proof.
  intros Hf Hg self.
  rewrite (Hg (f self)), (Hg (f __init__)), (Hf self). simpl.
  now rewrite !app_assoc.
Qed.

Lemma appends_ext (f g : AzureConfigChecker -> AzureConfigChecker) :
  (forall self, f self = g self) -> appends f -> appends g.
Proof. intros E Hf self. rewrite <- !E. apply Hf. Qed.

Lemma appends_fold {X} (step : AzureConfigChecker -> X -> AzureConfigChecker)
    (l : list X) :
  (forall x, appends (fun self => step self x)) ->
  appends (fun self => fold_left step l self).
Proof.
  intros Hstep. induction l as [|x l IH]; simpl.
  - apply appends_skip.
  - exact (appends_then (fun self => step self x) _ (Hstep x) IH).
Qed.

Create HintDb appends.
#[local] Hint Resolve appends_skip appends_error appends_warning : appends.

Lemma appends_security_rule_step content file_path item :
  appends (fun self => security_rule_step content file_path self item).
Proof.
  unfold security_rule_step.
  destruct (get (invert (snd item)) false),
    (found (re_search (pattern (snd item)) content (flag_or IGNORECASE DOTALL))),
    (get (required (snd item)) false),
    (String.eqb (severity (snd item)) "error"); simpl; auto with appends.
Qed.

Lemma appends_naming_step content file_path resource :
  appends (fun self => naming_step content file_path self resource).
Proof.
  unfold naming_step. destruct resource as [resource_name resource_type].
  destruct (dict_get type_mapping resource_type) as [naming_type|];
    auto with appends.
  destruct (negb (String.eqb naming_type EmptyString)),
    (dict_get naming_rules naming_type) as [pat|]; auto with appends.
  destruct (re_search name_pattern content NOFLAGS) as [m|]; auto with appends.
  destruct (negb (found (re_match pat (group m 1)))); auto with appends.
Qed.

Lemma appends_hardcoded_step content file_path item :
  appends (fun self => hardcoded_step content file_path self item).
Proof.
  unfold hardcoded_step. destruct item as [pat msg].
  destruct (found (re_search pat content IGNORECASE)); auto with appends.
Qed.

Lemma appends_security content file_path :
  appends (_check_security_rules content file_path).
Proof. apply appends_fold, appends_security_rule_step. Qed.

Lemma appends_naming content file_path :
  appends (_check_naming_conventions content file_path).
Proof. apply appends_fold, appends_naming_step. Qed.

Lemma appends_hardcoded content file_path :
  appends (_check_hardcoded_values content file_path).
Proof. apply appends_fold, appends_hardcoded_step. Qed.

Lemma appends_dependencies content file_path :
  appends (_check_resource_dependencies content file_path).
Proof.
  unfold _check_resource_dependencies.
  destruct (contains "Microsoft.KeyVault/vaults" content),
    (contains "Microsoft.Web/sites" content),
    (contains "Microsoft.ContainerInstance/containerGroups" content),
    (contains "accessPolicies" content),
    (contains "vnetRouteAllEnabled" content); simpl; auto with appends;
    apply (appends_then (fun self => warnings_append self _)
                        (fun self => warnings_append self _));
    auto with appends.
Qed.


Lemma appends_check_file fs file_path : appends (checked fs file_path).
Proof.
  unfold checked, check_file. destruct (fs file_path) as [content|e]; simpl.
  - apply (appends_then _ _
             (appends_then _ _
                (appends_then _ _ (appends_security content file_path)
                                  (appends_naming content file_path))
                (appends_hardcoded content file_path))
             (appends_dependencies content file_path)).
  - apply appends_error.
Qed.

End Appending.

(* ================================================================= *)
(** ** The loop of [main] *)

Section MainLoop.

Variable fs : filesystem.


Lemma check_file_events file_path self :
  snd (check_file fs file_path self) = file_events fs file_path.
Proof.
  unfold file_events, check_file. now destruct (fs file_path).
Qed.

Lemma loop_spec (files : list string) checker all_passed trace :
  let '(checker', _, trace') :=
    fold_left (main_step fs) files (checker, all_passed, trace) in
  let checked_files :=
    filter (fun file_path => endswith file_path ".bicep") files in
  errors checker' = (errors checker ++ flat_map (file_errors fs) checked_files)%list
  /\ warnings checker'
     = (warnings checker ++ flat_map (file_warnings fs) checked_files)%list
  /\ trace' = (trace ++ flat_map (file_events fs) checked_files)%list.
Proof.
  revert checker all_passed trace.
  induction files as [|f files IH]; intros checker all_passed trace.
  - simpl. now rewrite !app_nil_r.
  - cbn [fold_left filter]. unfold main_step at 2.
    destruct (endswith f ".bicep"); cbn [negb].
    + pose proof (appends_check_file fs f checker) as Hf.
      pose proof (check_file_events f checker) as He.
      unfold checked in Hf.
      destruct (check_file fs f checker) as [[ok c1] out]. simpl in Hf, He.
      specialize (IH c1 (if negb ok then false else all_passed)
                     (trace ++ out)%list).
      destruct (fold_left (main_step fs) files _) as [[c' b'] t'].
      destruct IH as (E & W & T). subst c1 out. simpl in E, W.
      cbn [flat_map]. fold (file_errors fs f) (file_warnings fs f).
      fold (checked fs f __init__) in E, W.
      fold (file_errors fs f) in E. fold (file_warnings fs f) in W.
      now rewrite E, W, T, !app_assoc.
    + apply IH.
Qed.

Lemma final_checker_spec (argv : list string) :
  errors (final_checker fs argv) = flat_map (file_errors fs) (qualifying argv)
  /\ warnings (final_checker fs argv) = flat_map (file_warnings fs) (qualifying argv).
Proof.
  unfold final_checker, qualifying.
  pose proof (loop_spec (tl argv) __init__ true []) as H.
  destruct (fold_left (main_step fs) (tl argv) _) as [[c b] t].
  simpl in *. tauto.
Qed.

(** [main] once the argument count is fine. *)
Lemma main_spec (argv : list string) :
  2 <= List.length argv ->
  main fs argv =
    let trace := flat_map (file_events fs) (qualifying argv) in
    let (success, out) := print_results (final_checker fs argv) in
    if success then ((trace ++ out)%list, 0)
    else ((trace ++ out ++ tips)%list, 1).
Proof.
  intros Hlen. unfold main, final_checker, qualifying.
  destruct (Nat.ltb_spec (List.length argv) 2) as [Hlt|_]; [lia|].
  pose proof (loop_spec (tl argv) __init__ true []) as H.
  destruct (fold_left (main_step fs) (tl argv) _) as [[c b] t].
  destruct H as (_ & _ & ->). simpl.
  now destruct (List.length (errors c) =? 0)%nat.
Qed.

Lemma print_results_verdict (self : AzureConfigChecker) :
  fst (print_results self) = match errors self with [] => true | _ => false end.
Proof. unfold print_results. simpl. now destruct (errors self). Qed.

End MainLoop.

(* ================================================================= *)
(** ** Exit status, read failures, repeated runs *)

Section Runner.

Variable fs : filesystem.

Lemma exit_status_empty (argv : list string) :
  2 <= List.length argv -> errors (final_checker fs argv) = [] ->
  snd (main fs argv) = 0.
Proof.
  intros H E. rewrite (main_spec fs argv H).
  pose proof (print_results_verdict (final_checker fs argv)) as V.
  rewrite E in V. cbv zeta.
  destruct (print_results (final_checker fs argv)) as [success out].
  simpl in V. now subst success.
Qed.

Lemma exit_status_nonempty (argv : list string) :
  2 <= List.length argv -> errors (final_checker fs argv) <> [] ->
  snd (main fs argv) = 1.
Proof.
  intros H E. rewrite (main_spec fs argv H).
  pose proof (print_results_verdict (final_checker fs argv)) as V.
  destruct (errors (final_checker fs argv)) as [|e es]; [contradiction|].
  cbv zeta.
  destruct (print_results (final_checker fs argv)) as [success out].
  simpl in V. now subst success.
Qed.

(** C1 (as amended).  [main] exits with status 1 and nothing but the usage
    line when [sys.argv] holds no argument at all; otherwise the status is
    0 when the error list is empty at the end, whatever the warnings, and 1
    when it is not; and a list of arguments none of which ends in
    [.bicep] opens no file, prints the success line and exits with 0. *)
Theorem exit_status_of_main (argv : list string) :
  (List.length argv < 2 -> main fs argv = ([Print usage], 1))
  /\ (2 <= List.length argv -> errors (final_checker fs argv) = [] ->
      snd (main fs argv) = 0)
  /\ (2 <= List.length argv -> errors (final_checker fs argv) <> [] ->
      snd (main fs argv) = 1)
  /\ (2 <= List.length argv -> qualifying argv = [] ->
      snd (main fs argv) = 0
      /\ (forall file_path, ~ In (Open file_path) (fst (main fs argv)))
      /\ ~ In (Print usage) (fst (main fs argv))).
Proof.
  split; [|split; [|split]].
  - intros H. unfold main.
    now destruct (Nat.ltb_spec (List.length argv) 2) as [_|H']; [|lia].
  - apply exit_status_empty.
  - apply exit_status_nonempty.
  - intros H Q. rewrite (main_spec fs argv H).
    destruct (final_checker_spec fs argv) as [E W]. rewrite Q in E, W.
    simpl in E, W. rewrite Q. unfold print_results. rewrite E, W. simpl.
    repeat split.
    + intros file_path [F|[]]. discriminate.
    + intros [F|[]]. discriminate.
Qed.

(** C7.  When reading a file fails, [check_file] still returns: it adds
    one error line holding the path and the reason and answers [False].
    In a run of [main] over arguments among which that file is, the line
    is among the errors at the end, every argument ending in [.bicep] has
    been opened, the findings of every one of them are in the final
    lists, and the run ends with exit status 1. *)
Theorem read_failure_is_recorded (file_path reason : string) :
  fs file_path = Raises reason ->
  (forall self,
      check_file fs file_path self
      = (false,
         errors_append self ("Error reading " ++ file_path ++ ": " ++ reason),
         [Open file_path]))
  /\ (forall argv,
         In file_path (qualifying argv) ->
         In ("Error reading " ++ file_path ++ ": " ++ reason)
            (errors (final_checker fs argv))
         /\ (forall other, In other (qualifying argv) ->
               In (Open other) (fst (main fs argv))
               /\ incl (file_errors fs other) (errors (final_checker fs argv))
               /\ incl (file_warnings fs other)
                       (warnings (final_checker fs argv)))
         /\ snd (main fs argv) = 1).
Proof.
  intros Hfail. split.
  - intros self. unfold check_file. now rewrite Hfail.
  - intros argv Hin.
    assert (Hlen : 2 <= List.length argv).
    { unfold qualifying in Hin. destruct argv as [|a [|b argv]]; simpl in *;
        [contradiction | contradiction | lia]. }
    destruct (final_checker_spec fs argv) as [E W].
    assert (Hline : In ("Error reading " ++ file_path ++ ": " ++ reason)
                       (errors (final_checker fs argv))).
    { rewrite E. apply in_flat_map. exists file_path. split; [exact Hin|].
      unfold file_errors, checked, check_file. rewrite Hfail. simpl. now left. }
    split; [exact Hline | split].
    + intros other Hother. repeat split.
      * rewrite (main_spec fs argv Hlen). cbv zeta.
        assert (Htrace : In (Open other)
                            (flat_map (file_events fs) (qualifying argv))).
        { apply in_flat_map. exists other. split; [exact Hother|].
          unfold file_events, check_file.
          destruct (fs other); simpl; now left. }
        destruct (print_results (final_checker fs argv)) as [[|] out]; simpl;
          apply in_or_app; now left.
      * rewrite E. intros x Hx. apply in_flat_map. now exists other.
      * rewrite W. intros x Hx. apply in_flat_map. now exists other.
    + pose proof (exit_status_nonempty argv) as S. apply S; [exact Hlen|].
      intros Z. rewrite Z in Hline. contradiction.
Qed.

End Runner.

(** C1, counterexample to the sentence of the specification: with one
    argument that does not end in [.bicep] no qualifying file is
    supplied, and the exit status is 0, not 1. *)
Lemma exit_status_without_qualifying_file :
  qualifying ["azure-config-check.py"; "README.md"] = []
  /\ main disk ["azure-config-check.py"; "README.md"]
     <> ([Print usage], 1)
  /\ snd (main disk ["azure-config-check.py"; "README.md"]) = 0.
Proof. repeat split. vm_compute. discriminate. Qed.

Lemma exit_status_of_main_witness :
  main disk ["azure-config-check.py"] = ([Print usage], 1)
  /\ snd (main disk ["azure-config-check.py"; "clean.bicep"]) = 0
  /\ snd (main disk ["azure-config-check.py"; "clean.bicep"; "nohttps.bicep"])
     = 1
  /\ snd (main disk ["azure-config-check.py"; "notes.txt"]) = 0.
Proof.
  split; [|split; [|split]].
  - apply (proj1 (exit_status_of_main disk ["azure-config-check.py"])).
    simpl. lia.
  - apply (proj1 (proj2 (exit_status_of_main disk
                           ["azure-config-check.py"; "clean.bicep"]))).
    + simpl. lia.
    + vm_compute. reflexivity.
  - apply (proj1 (proj2 (proj2 (exit_status_of_main disk
             ["azure-config-check.py"; "clean.bicep"; "nohttps.bicep"])))).
    + simpl. lia.
    + vm_compute. discriminate.
  - apply (proj2 (proj2 (proj2 (exit_status_of_main disk
                                  ["azure-config-check.py"; "notes.txt"])))).
    + simpl. lia.
    + vm_compute. reflexivity.
Defined.

Lemma read_failure_is_recorded_witness :
  In "Error reading gone.bicep: [Errno 2] No such file or directory"
     (errors (final_checker disk
                ["azure-config-check.py"; "gone.bicep"; "nohttps.bicep"]))
  /\ In (Open "nohttps.bicep")
        (fst (main disk
                ["azure-config-check.py"; "gone.bicep"; "nohttps.bicep"])).
Proof.
  assert (Hfail : disk "gone.bicep"
                  = Raises "[Errno 2] No such file or directory")
    by reflexivity.
  assert (Hin : In "gone.bicep"
                  (qualifying
                     ["azure-config-check.py"; "gone.bicep"; "nohttps.bicep"]))
    by (cbv; left; reflexivity).
  destruct (proj2 (read_failure_is_recorded disk "gone.bicep" _ Hfail) _ Hin)
    as (Hline & Hothers & _).
  split; [exact Hline|].
  assert (Hin' : In "nohttps.bicep"
                   (qualifying
                      ["azure-config-check.py"; "gone.bicep"; "nohttps.bicep"]))
    by (cbv; right; left; reflexivity).
  exact (proj1 (Hothers "nohttps.bicep" Hin')).
Defined.

Section Repetition.

Variable fs : filesystem.

(** C8.  The findings [check_file] adds, in order, and what it prints
    depend on the path and on the text read there, and on nothing else:
    two passes over an unchanged file add the same errors and the same
    warnings whatever the two checker objects held before, and from a
    fresh checker the two results are equal. *)
Theorem check_file_is_deterministic (fs' : filesystem) (file_path : string) :
  fs file_path = fs' file_path ->
  check_file fs file_path __init__ = check_file fs' file_path __init__
  /\ exists new_errors new_warnings,
      forall self self',
        errors (checked fs file_path self) = (errors self ++ new_errors)%list
        /\ warnings (checked fs file_path self)
           = (warnings self ++ new_warnings)%list
        /\ errors (checked fs' file_path self')
           = (errors self' ++ new_errors)%list
        /\ warnings (checked fs' file_path self')
           = (warnings self' ++ new_warnings)%list
        /\ snd (check_file fs file_path self)
           = snd (check_file fs' file_path self').
Proof.
  intros Same.
  assert (E0 : check_file fs file_path __init__
               = check_file fs' file_path __init__).
  { unfold check_file. now rewrite Same. }
  split; [exact E0|].
  exists (file_errors fs file_path), (file_warnings fs file_path).
  intros self self'.
  pose proof (appends_check_file fs file_path self) as H1.
  pose proof (appends_check_file fs' file_path self') as H2.
  assert (E1 : checked fs' file_path __init__ = checked fs file_path __init__).
  { unfold checked. now rewrite E0. }
  rewrite E1 in H2. rewrite H1, H2, !check_file_events. simpl.
  unfold file_events. rewrite E0. repeat split.
Qed.

(** C9.  The value [check_file] returns is the verdict on everything the
    checker object has recorded so far: on a file that can be read it is
    [True] exactly when the errors recorded before, followed by the
    errors of this file, are none.  So once the error list is not empty,
    [check_file] returns [False] on every later file, also on one that
    adds no finding, and the error list stays non-empty. *)
Theorem check_file_verdict_is_accumulated :
  (forall file_path content self,
      fs file_path = Text content ->
      returned fs file_path self
      = match (errors self ++ file_errors fs file_path)%list with
        | [] => true
        | _ => false
        end)
  /\ (forall file_path self,
         errors self <> [] ->
         returned fs file_path self = false
         /\ errors (checked fs file_path self) <> [])
  /\ (forall earlier later file_path,
         errors (fold_left (fun c p => checked fs p c) earlier __init__) <> [] ->
         returned fs file_path
           (fold_left (fun c p => checked fs p c) (earlier ++ later) __init__)
         = false).
Proof.
  assert (Hret : forall file_path content self,
             fs file_path = Text content ->
             returned fs file_path self
             = match (errors self ++ file_errors fs file_path)%list with
               | [] => true
               | _ => false
               end).
  { intros file_path content self Hread.
    pose proof (appends_check_file fs file_path self) as H.
    unfold returned, file_errors. unfold checked in *. unfold check_file in *.
    rewrite Hread in *. cbn [fst snd] in *.
    rewrite H. cbn [errors].
    now destruct (errors self ++ _)%list. }
  assert (Hgrow : forall file_path self,
             errors self <> [] -> errors (checked fs file_path self) <> []).
  { intros file_path self Hne.
    rewrite (appends_check_file fs file_path self). simpl.
    destruct (errors self); [contradiction | discriminate]. }
  assert (Hfalse : forall file_path self,
             errors self <> [] -> returned fs file_path self = false).
  { intros file_path self Hne.
    destruct (fs file_path) as [content|reason] eqn:Hread.
    - rewrite (Hret _ _ _ Hread).
      destruct (errors self); [contradiction | reflexivity].
    - unfold returned, check_file. now rewrite Hread. }
  split; [exact Hret | split].
  - intros file_path self Hne. split; [now apply Hfalse | now apply Hgrow].
  - intros earlier later file_path Hne. apply Hfalse.
    rewrite fold_left_app.
    generalize dependent (fold_left (fun c p => checked fs p c) earlier __init__).
    induction later as [|f later IH]; intros self Hne; simpl.
    + exact Hne.
    + apply IH. now apply Hgrow.
Qed.

End Repetition.

Lemma check_file_is_deterministic_witness :
  check_file disk "nohttps.bicep" __init__
  = check_file other_disk "nohttps.bicep" __init__
  /\ exists new_errors new_warnings,
      forall self self',
        errors (checked disk "nohttps.bicep" self)
        = (errors self ++ new_errors)%list
        /\ warnings (checked disk "nohttps.bicep" self)
           = (warnings self ++ new_warnings)%list
        /\ errors (checked other_disk "nohttps.bicep" self')
           = (errors self' ++ new_errors)%list
        /\ warnings (checked other_disk "nohttps.bicep" self')
           = (warnings self' ++ new_warnings)%list
        /\ snd (check_file disk "nohttps.bicep" self)
           = snd (check_file other_disk "nohttps.bicep" self').
Proof.
  apply (check_file_is_deterministic disk other_disk "nohttps.bicep"). reflexivity.
Defined.

Lemma check_file_verdict_is_accumulated_witness :
  returned disk "clean.bicep" __init__ = true
  /\ file_errors disk "clean.bicep" = []
  /\ file_warnings disk "clean.bicep" = []
  /\ returned disk "clean.bicep" (checked disk "nohttps.bicep" __init__) = false.
Proof.
  split; [|split; [|split]].
  - vm_compute. reflexivity.
  - vm_compute. reflexivity.
  - vm_compute. reflexivity.
  - apply (proj1 (proj2 (check_file_verdict_is_accumulated disk))).
    vm_compute. discriminate.
Defined.

(* ================================================================= *)
(** ** The security rules *)

Section SecurityRules.

Variables content file_path : string.

(** The outcome of [re.search] for a rule's pattern, as the loop sees
    it. *)
Let matched (pat : string) : bool :=
  found (re_search pat content (flag_or IGNORECASE DOTALL)).

(** The line recorded for a message. *)
Let line (msg : string) : string := file_path ++ ": " ++ msg.

(** What the whole pass adds to a fresh checker: the two required rules
    speak when their pattern is absent, the two inverted rules when
    theirs is present, and the two rules that are neither never do. *)
Lemma security_findings :
  _check_security_rules content file_path __init__
  = Self
      ((if matched "supportsHttpsTrafficOnly.*true" then []
        else [line "Storage accounts should require secure transfer (HTTPS)"])
       ++ (if matched "httpsOnly.*true" then []
           else [line "App Services should enforce HTTPS only"])
       ++ (if matched "securityRules.*access.*Allow.*\*.*\*"
           then [line "NSG rules should not allow unrestricted access (*:*)"]
           else [])
       ++ (if matched
                "firewallRules.*startIpAddress.*0\.0\.0\.0.*endIpAddress.*255\.255\.255\.255"
           then [line "SQL Server should not allow unrestricted firewall access (0.0.0.0-255.255.255.255)"]
           else []))%list
      [].
Proof.
  unfold _check_security_rules, security_rules, matched, line.
  cbn [fold_left]. unfold security_rule_step.
  cbn [snd pattern message severity invert required get String.eqb Ascii.eqb
       Bool.eqb andb negb].
  destruct (found (re_search "accessPolicies.*permissions.*secrets.*\[.*get.*list.*\]" _ _)),
    (found (re_search "supportsHttpsTrafficOnly.*true" _ _)),
    (found (re_search "httpsOnly.*true" _ _)),
    (found (re_search "identity.*type.*SystemAssigned|UserAssigned" _ _)),
    (found (re_search "securityRules.*access.*Allow.*\*.*\*" _ _)),
    (found (re_search "firewallRules.*startIpAddress.*0\.0\.0\.0.*endIpAddress.*255\.255\.255\.255" _ _));
    reflexivity.
Qed.

Lemma count_cons_other (msg msg' : string) (l : list string) :
  msg <> msg' ->
  count (line msg :: l) (line msg') = count l (line msg').
Proof.
  intros Hne. apply count_occ_cons_neq. intros E. unfold line in E.
  apply append_inv_head in E. simpl in E. injection E as E. contradiction.
Qed.

Lemma count_cons_same (x : string) (l : list string) :
  count (x :: l) x = S (count l x).
Proof. now apply count_occ_cons_eq. Qed.

Lemma count_app (l1 l2 : list string) (x : string) :
  count (l1 ++ l2) x = count l1 x + count l2 x.
Proof. apply count_occ_app. Qed.

(** C3.  For every rule of the catalog and every document: an inverted
    rule records its line once, at its severity, when its pattern is
    found and nothing when it is not; a rule that is not inverted and is
    required records its line once, at its severity, when its pattern is
    not found and nothing when it is; a rule that is neither inverted
    nor required records nothing. *)
Theorem security_rule_semantics (self : AzureConfigChecker)
    (name : string) (rule : rule_config) :
  In (name, rule) security_rules ->
  let self' := _check_security_rules content file_path self in
  let recorded := records self self' (severity rule) (line (message rule)) in
  (get (invert rule) false = true ->
     (matched (pattern rule) = true -> recorded 1)
     /\ (matched (pattern rule) = false -> recorded 0))
  /\ (get (invert rule) false = false -> get (required rule) false = true ->
        (matched (pattern rule) = false -> recorded 1)
        /\ (matched (pattern rule) = true -> recorded 0))
  /\ (get (invert rule) false = false -> get (required rule) false = false ->
        recorded 0).
Proof.
  intros Hin self' recorded. subst self' recorded.
  unfold records.
  rewrite (appends_security content file_path self), security_findings.
  cbn [errors warnings]. rewrite !count_app.
  simpl in Hin.
  repeat (destruct Hin as [Hin|Hin]; [injection Hin as <- <-|]);
    [..|contradiction];
    cbn [pattern message severity invert required get String.eqb Ascii.eqb
         Bool.eqb];
    (split; [|split]); intros; try discriminate; try split; intros;
    repeat match goal with
           | H : matched _ = _ |- _ => rewrite H
           end;
    repeat match goal with
           | |- context [matched ?p] => destruct (matched p)
           end;
    cbn [app];
    repeat (rewrite count_cons_same
            || rewrite count_cons_other by discriminate);
    unfold count; cbn [count_occ]; lia.
Qed.

End SecurityRules.

Lemma security_rule_semantics_witness :
  records __init__ (_check_security_rules doc_no_https "nohttps.bicep" __init__)
    "error" "nohttps.bicep: App Services should enforce HTTPS only" 1.
Proof.
  apply (proj1
           (proj1 (proj2 (security_rule_semantics doc_no_https "nohttps.bicep"
                            __init__ "app_service_https_only"
                            (Rule "httpsOnly.*true"
                                  "App Services should enforce HTTPS only"
                                  "error" (Some true) None)
                            ltac:(cbv; tauto)))
                  eq_refl eq_refl)).
  vm_compute. reflexivity.
Defined.

(* ================================================================= *)
(** ** Matching under [re.IGNORECASE] does not see the letter case *)

Section IgnoreCase.

Ltac by_cases_on c :=
  destruct c as [[] [] [] [] [] [] [] []]; reflexivity.

Lemma lower_idem (c : ascii) : lower (lower c) = lower c.
Proof. by_cases_on c. Qed.

Lemma upper_lower (c : ascii) : upper (lower c) = upper c.
Proof. by_cases_on c. Qed.

Lemma newline_lower (c : ascii) :
  Ascii.eqb (lower c) newline = Ascii.eqb c newline.
Proof. by_cases_on c. Qed.

Lemma is_space_lower (c : ascii) : is_space (lower c) = is_space c.
Proof. by_cases_on c. Qed.

Lemma is_word_lower (c : ascii) : is_word (lower c) = is_word c.
Proof. by_cases_on c. Qed.

Lemma is_digit_lower (c : ascii) : is_digit (lower c) = is_digit c.
Proof. by_cases_on c. Qed.

Variable fl : flags.
Hypothesis ignoring : ignorecase fl = true.

Lemma item_match_lower (it : set_item) (c : ascii) :
  item_match true it (lower c) = item_match true it c.
Proof.
  destruct it; simpl.
  - now rewrite lower_idem.
  - now rewrite lower_idem, upper_lower.
  - apply is_space_lower.
  - apply is_word_lower.
  - apply is_digit_lower.
Qed.

Lemma atom_match_lower (a : atom) (c : ascii) :
  atom_match fl a (lower c) = atom_match fl a c.
Proof.
  destruct a; simpl; rewrite ?ignoring.
  - now rewrite lower_idem.
  - now rewrite newline_lower.
  - apply is_space_lower.
  - apply is_word_lower.
  - apply is_digit_lower.
  - f_equal. induction items as [|it items IH]; simpl; [reflexivity|].
    now rewrite item_match_lower, IH.
Qed.

Lemma at_end_lower (s : string) : at_end (lowercase s) = at_end s.
Proof.
  destruct s as [|c [|d s]]; simpl; try reflexivity. apply newline_lower.
Qed.

Lemma succeeds_orelse {A} (x y : option A) :
  succeeds (match x with Some m => Some m | None => y end)
  = succeeds x || succeeds y.
Proof. now destruct x. Qed.

Lemma rep_lower {A B} (a : atom) (k' : kont A) (k : kont B) :
  alike k' k ->
  forall s lo hi i g' g,
    succeeds (rep fl a lo hi i (lowercase s) g' k')
    = succeeds (rep fl a lo hi i s g k).
Proof.
  intros Hk. induction s as [|c s IH]; intros lo hi i g' g.
  - simpl. destruct hi as [[|h]|]; destruct (lo =? 0)%nat; try reflexivity;
      apply (Hk i EmptyString).
  - assert (Hstop : succeeds (if (lo =? 0)%nat
                              then k' i (lowercase (String c s)) g' else None)
                    = succeeds (if (lo =? 0)%nat
                                then k i (String c s) g else None)).
    { destruct (lo =? 0)%nat; [apply Hk | reflexivity]. }
    cbn [lowercase rep] in *.
    destruct hi as [[|h]|]; try exact Hstop;
      rewrite atom_match_lower; destruct (atom_match fl a c); try exact Hstop;
      rewrite !succeeds_orelse, Hstop; f_equal; apply IH.
Qed.

Lemma exec_lower (r : regex) :
  forall {A B} (k' : kont A) (k : kont B),
    alike k' k ->
    forall i s g' g,
      succeeds (exec fl r i (lowercase s) g' k')
      = succeeds (exec fl r i s g k).
Proof.
  induction r as [|a|a lo hi|r1 IH1 r2 IH2|r1 IH1 r2 IH2|n r IH| |];
    intros A B k' k Hk i s g' g; cbn [exec].
  - apply Hk.
  - destruct s as [|c s]; cbn [lowercase]; [reflexivity|].
    rewrite atom_match_lower. destruct (atom_match fl a c); [apply Hk | reflexivity].
  - now apply rep_lower.
  - apply IH1. intros j t h' h. now apply IH2.
  - rewrite !succeeds_orelse. f_equal; [now apply IH1 | now apply IH2].
  - apply IH. intros j t h' h. apply Hk.
  - destruct (i =? 0)%nat; [apply Hk | reflexivity].
  - rewrite at_end_lower. destruct (at_end s); [apply Hk | reflexivity].
Qed.

Lemma search_from_lower (r : regex) (s : string) :
  forall i,
    found (search_from fl r i (lowercase s)) = found (search_from fl r i s).
Proof.
  assert (Hat : forall i t,
             succeeds (match_at fl r i (lowercase t))
             = succeeds (match_at fl r i t)).
  { intros i t. unfold match_at. apply exec_lower. intros j u h' h. reflexivity. }
  induction s as [|c s IH]; intros i; cbn [lowercase search_from].
  - now destruct (match_at fl r i EmptyString).
  - specialize (Hat i (String c s)). cbn [lowercase] in Hat.
    destruct (match_at fl r i (String (lower c) (lowercase s))),
      (match_at fl r i (String c s)); simpl in Hat; try discriminate;
      [reflexivity | apply IH].
Qed.

(** [re.search] with [re.IGNORECASE] finds a pattern in a text exactly
    when it finds it in the lowered text. *)
Lemma re_search_lower (pat text : string) :
  found (re_search pat (lowercase text) fl) = found (re_search pat text fl).
Proof.
  unfold re_search. destruct (re_compile pat) as [r|]; [|reflexivity].
  apply search_from_lower.
Qed.

End IgnoreCase.

(* ================================================================= *)
(** ** The resource-dependency check *)

Section Dependencies.

Variables content file_path : string.

(** What the pass does, in terms of its five substring tests. *)
Lemma dependency_findings (self : AzureConfigChecker) :
  _check_resource_dependencies content file_path self
  = Self (errors self)
      (warnings self
       ++ (if contains "Microsoft.KeyVault/vaults" content
              && (contains "Microsoft.Web/sites" content
                  || contains "Microsoft.ContainerInstance/containerGroups"
                       content)
              && negb (contains "accessPolicies" content)
           then [access_policy_warning file_path] else [])
       ++ (if contains "Microsoft.Web/sites" content
              && negb (contains "vnetRouteAllEnabled" content)
           then [vnet_warning file_path] else []))%list.
Proof.
  unfold _check_resource_dependencies, warnings_append. destruct self as [e w].
  destruct (contains "Microsoft.KeyVault/vaults" content),
    (contains "Microsoft.Web/sites" content),
    (contains "Microsoft.ContainerInstance/containerGroups" content),
    (contains "accessPolicies" content),
    (contains "vnetRouteAllEnabled" content); simpl;
    rewrite ?app_nil_r, <- ?app_assoc; reflexivity.
Qed.

Lemma warnings_differ : access_policy_warning file_path <> vnet_warning file_path.
Proof.
  unfold access_policy_warning, vnet_warning. intros E.
  apply append_inv_head in E. discriminate.
Qed.

Lemma count_dependency_warnings (self : AzureConfigChecker) (b1 b2 : bool) :
  let added :=
    ((if b1 then [access_policy_warning file_path] else [])
     ++ (if b2 then [vnet_warning file_path] else []))%list in
  count (warnings self ++ added) (access_policy_warning file_path)
  = count (warnings self) (access_policy_warning file_path)
    + (if b1 then 1 else 0)
  /\ count (warnings self ++ added) (vnet_warning file_path)
     = count (warnings self) (vnet_warning file_path) + (if b2 then 1 else 0).
Proof.
  pose proof warnings_differ as D.
  cbv zeta. unfold count. rewrite !count_occ_app.
  destruct b1, b2; cbn [app count_occ];
    repeat match goal with
           | |- context [string_dec ?a ?b] => destruct (string_dec a b)
           end;
    try congruence; split; lia.
Qed.

(** C6.  The pass adds warnings only.  When the document holds the
    Key-Vault type and the web-app or the container-group type and does
    not hold the access-policy keyword, the access-policy warning is
    added exactly once; when the document holds the access-policy
    keyword anywhere, it is not added. *)
Theorem access_policy_warning_rule (self : AzureConfigChecker) :
  let self' := _check_resource_dependencies content file_path self in
  let warning := access_policy_warning file_path in
  errors self' = errors self
  /\ (occurs_in "Microsoft.KeyVault/vaults" content ->
      occurs_in "Microsoft.Web/sites" content
      \/ occurs_in "Microsoft.ContainerInstance/containerGroups" content ->
      ~ occurs_in "accessPolicies" content ->
      count (warnings self') warning = count (warnings self) warning + 1)
  /\ (occurs_in "accessPolicies" content ->
      count (warnings self') warning = count (warnings self) warning).
Proof.
  cbv zeta. rewrite dependency_findings. cbn [errors warnings].
  split; [reflexivity | split].
  - intros Hkv Hdep Hap.
    apply contains_spec in Hkv. apply contains_absent in Hap.
    assert (Hd : contains "Microsoft.Web/sites" content
                 || contains "Microsoft.ContainerInstance/containerGroups"
                      content = true).
    { apply orb_true_iff. destruct Hdep as [H|H]; apply contains_spec in H; auto. }
    rewrite Hkv, Hd, Hap. cbn [andb negb].
    apply (proj1 (count_dependency_warnings self true _)).
  - intros Hap. apply contains_spec in Hap. rewrite Hap, andb_false_r.
    rewrite (proj1 (count_dependency_warnings self false _)). lia.
Qed.

End Dependencies.

Lemma access_policy_warning_rule_witness :
  count (warnings (_check_resource_dependencies doc_vault_and_site
                     "main.bicep" __init__))
        (access_policy_warning "main.bicep") = 0 + 1
  /\ count (warnings (_check_resource_dependencies
                        doc_vault_and_site_with_policies "main.bicep" __init__))
           (access_policy_warning "main.bicep") = 0.
Proof.
  split.
  - apply (proj1 (proj2 (access_policy_warning_rule doc_vault_and_site
                           "main.bicep" __init__))).
    + apply contains_spec. vm_compute. reflexivity.
    + left. apply contains_spec. vm_compute. reflexivity.
    + apply contains_absent. vm_compute. reflexivity.
  - apply (proj2 (proj2 (access_policy_warning_rule
                           doc_vault_and_site_with_policies
                           "main.bicep" __init__))).
    apply contains_spec. vm_compute. reflexivity.
Defined.

(* ================================================================= *)
(** ** Letter case: the substring tests against the security rules *)

Section LetterCase.

Variables content file_path : string.

Lemma security_rules_ignore_case (self : AzureConfigChecker) :
  _check_security_rules (lowercase content) file_path self
  = _check_security_rules content file_path self.
Proof.
  unfold _check_security_rules. revert self.
  induction security_rules as [|item rules IH]; intros self; simpl;
    [reflexivity|].
  rewrite <- IH. f_equal. unfold security_rule_step.
  now rewrite (re_search_lower (flag_or IGNORECASE DOTALL) eq_refl).
Qed.

(** C10.  The resource-dependency check looks for its five keywords by
    exact substring: a keyword the document holds in another letter
    case only is a keyword the document does not hold.  Such a Key-Vault,
    web-app or container-group type triggers no warning, and such an
    access-policy or routing keyword suppresses none; the outcome is the
    same for any two documents that agree on the five exact tests.  The
    security rules, matched with [re.IGNORECASE], give the same outcome
    on the document and on the document in lower case. *)
Theorem dependency_tests_are_case_sensitive (self : AzureConfigChecker) :
  let self' := _check_resource_dependencies content file_path self in
  let added line n :=
    count (warnings self') line = count (warnings self) line + n in
  (other_case_only "Microsoft.KeyVault/vaults" content ->
     added (access_policy_warning file_path) 0)
  /\ (other_case_only "Microsoft.Web/sites" content ->
        added (vnet_warning file_path) 0
        /\ (~ occurs_in "Microsoft.ContainerInstance/containerGroups" content ->
              added (access_policy_warning file_path) 0))
  /\ (other_case_only "Microsoft.ContainerInstance/containerGroups" content ->
        ~ occurs_in "Microsoft.Web/sites" content ->
        added (access_policy_warning file_path) 0)
  /\ (other_case_only "accessPolicies" content ->
        occurs_in "Microsoft.KeyVault/vaults" content ->
        occurs_in "Microsoft.Web/sites" content
        \/ occurs_in "Microsoft.ContainerInstance/containerGroups" content ->
        added (access_policy_warning file_path) 1)
  /\ (other_case_only "vnetRouteAllEnabled" content ->
        occurs_in "Microsoft.Web/sites" content ->
        added (vnet_warning file_path) 1)
  /\ (forall content',
         (forall keyword, In keyword dependency_keywords ->
            contains keyword content' = contains keyword content) ->
         _check_resource_dependencies content' file_path self = self')
  /\ _check_security_rules (lowercase content) file_path self
     = _check_security_rules content file_path self.
Proof.
  cbv zeta. rewrite dependency_findings. cbn [warnings].
  set (b1 := contains "Microsoft.KeyVault/vaults" content
             && (contains "Microsoft.Web/sites" content
                 || contains "Microsoft.ContainerInstance/containerGroups"
                      content)
             && negb (contains "accessPolicies" content)).
  set (b2 := contains "Microsoft.Web/sites" content
             && negb (contains "vnetRouteAllEnabled" content)).
  destruct (count_dependency_warnings file_path self b1 b2) as [Ha Hv].
  cbv zeta in Ha, Hv. rewrite Ha, Hv. subst b1 b2.
  repeat match goal with |- _ /\ _ => split end.
  - intros [Hkv _]. apply contains_absent in Hkv. now rewrite Hkv.
  - intros [Hweb _]. apply contains_absent in Hweb. rewrite Hweb.
    split; [reflexivity|].
    intros Hci. apply contains_absent in Hci. now rewrite Hci, andb_false_r.
  - intros [Hci _] Hweb. apply contains_absent in Hci, Hweb.
    now rewrite Hci, Hweb, andb_false_r.
  - intros [Hap _] Hkv Hdep. apply contains_absent in Hap.
    apply contains_spec in Hkv.
    assert (Hd : contains "Microsoft.Web/sites" content
                 || contains "Microsoft.ContainerInstance/containerGroups"
                      content = true).
    { apply orb_true_iff. destruct Hdep as [H|H]; apply contains_spec in H; auto. }
    now rewrite Hkv, Hd, Hap.
  - intros [Hvn _] Hweb. apply contains_absent in Hvn.
    apply contains_spec in Hweb. now rewrite Hweb, Hvn.
  - intros content' Hsame. rewrite dependency_findings.
    rewrite !Hsame by (cbv; tauto). reflexivity.
  - apply security_rules_ignore_case.
Qed.

End LetterCase.

Lemma dependency_tests_are_case_sensitive_witness :
  count (warnings (_check_resource_dependencies doc_vault_and_site_lowered
                     "main.bicep" __init__))
        (vnet_warning "main.bicep") = 0 + 0
  /\ count (warnings (_check_resource_dependencies doc_keywords_in_capitals
                        "main.bicep" __init__))
           (access_policy_warning "main.bicep") = 0 + 1.
Proof.
  assert (Hweb : other_case_only "Microsoft.Web/sites"
                   doc_vault_and_site_lowered).
  { split.
    - apply contains_absent. vm_compute. reflexivity.
    - apply contains_spec. vm_compute. reflexivity. }
  assert (Hap : other_case_only "accessPolicies" doc_keywords_in_capitals).
  { split.
    - apply contains_absent. vm_compute. reflexivity.
    - apply contains_spec. vm_compute. reflexivity. }
  split.
  - exact (proj1 (proj1 (proj2 (dependency_tests_are_case_sensitive
                                  doc_vault_and_site_lowered "main.bicep"
                                  __init__)) Hweb)).
  - apply (proj1 (proj2 (proj2 (proj2 (dependency_tests_are_case_sensitive
                           doc_keywords_in_capitals "main.bicep" __init__))))
             Hap).
    + apply contains_spec. vm_compute. reflexivity.
    + left. apply contains_spec. vm_compute. reflexivity.
Defined.

(* ================================================================= *)
(** ** The patterns of the script *)

(** Every pattern of the script lies in the fragment [re_compile]
    reads. *)
Lemma patterns_compile :
  forall p, In p script_patterns -> re_compile p <> None.
Proof.
  assert (H : forallb (fun p => succeeds (re_compile p)) script_patterns = true)
    by (vm_compute; reflexivity).
  intros p Hin E. rewrite forallb_forall in H. specialize (H p Hin).
  rewrite E in H. discriminate.
Qed.

(* ================================================================= *)
(** ** The matcher against the meaning of patterns *)

Section Matcher.

Variable fl : flags.

Lemma substring_prefix (a b : string) :
  substring 0 (String.length a) (a ++ b) = a.
Proof.
  induction a as [|c a IH]; simpl.
  - now destruct b.
  - now rewrite IH.
Qed.

(** What [rep] returns comes from its continuation, after a run of
    characters of the atom whose length is within the bounds. *)
Lemma rep_sound {A} (a : atom) (k : kont A) (g : groups) (x : A) :
  forall s lo hi i,
    rep fl a lo hi i s g k = Some x ->
    exists s1 s2,
      s = s1 ++ s2
      /\ matches fl (Rep a lo hi) i s1 s2 g g
      /\ k (i + String.length s1) s2 g = Some x.
Proof.
  assert (Hstop : forall s lo hi i,
             (if (lo =? 0)%nat then k i s g else None) = Some x ->
             exists s1 s2,
               s = s1 ++ s2
               /\ matches fl (Rep a lo hi) i s1 s2 g g
               /\ k (i + String.length s1) s2 g = Some x).
  { intros s lo hi i H. destruct (Nat.eqb_spec lo 0) as [->|]; [|discriminate].
    exists EmptyString, s. simpl. rewrite Nat.add_0_r.
    repeat split; auto. destruct hi; [lia | exact I]. }
  induction s as [|c s IH]; intros lo hi i H.
  - apply Hstop. simpl in H. destruct hi as [[|h]|]; exact H.
  - cbn [rep] in H.
    assert (Hstep : rep fl a (pred lo) (option_map pred hi) (S i) s g k = Some x ->
                    atom_match fl a c = true -> hi <> Some 0 ->
                    exists s1 s2,
                      String c s = s1 ++ s2
                      /\ matches fl (Rep a lo hi) i s1 s2 g g
                      /\ k (i + String.length s1) s2 g = Some x).
    { intros Hrec Hc Hhi. destruct (IH _ _ _ Hrec) as (s1 & s2 & -> & M & K).
      exists (String c s1), s2. simpl in M |- *.
      destruct M as (Hall & Hlo & Hhi' & _).
      rewrite Hc, Hall, <- plus_n_Sm. repeat split; auto; [lia|].
      destruct hi as [[|h]|]; simpl in *; [congruence | lia | exact I]. }
    destruct hi as [[|h]|]; [now apply Hstop | |];
      (destruct (atom_match fl a c) eqn:Hc; [|now apply Hstop]);
      (destruct (rep fl a (pred lo) _ (S i) s g k) as [y|] eqn:Hrec;
       [injection H as ->;
        apply Hstep; first [assumption | reflexivity | discriminate]
       |now apply Hstop]).
Qed.

(** Soundness: an answer of the matcher is an answer of its
    continuation, reached across a part of the text that the pattern
    covers. *)
Lemma exec_sound (r : regex) :
  forall {A} (k : kont A) i s g x,
    exec fl r i s g k = Some x ->
    exists s1 s2 g',
      s = s1 ++ s2
      /\ matches fl r i s1 s2 g g'
      /\ k (i + String.length s1) s2 g' = Some x.
Proof.
  induction r as [|a|a lo hi|r1 IH1 r2 IH2|r1 IH1 r2 IH2|n r IH| |];
    intros A k i s g x H; cbn [exec] in H.
  - exists EmptyString, s, g. simpl. now rewrite Nat.add_0_r.
  - destruct s as [|c s]; [discriminate|].
    destruct (atom_match fl a c) eqn:Hc; [|discriminate].
    exists (String c EmptyString), s, g. simpl.
    rewrite Nat.add_1_r. repeat split; auto. now exists c.
  - destruct (rep_sound a k g x _ _ _ _ H) as (s1 & s2 & E & M & K).
    now exists s1, s2, g.
  - destruct (IH1 _ _ _ _ _ _ H) as (u & rest & gm & -> & M1 & H2).
    destruct (IH2 _ _ _ _ _ _ H2) as (v & s2 & g' & -> & M2 & K).
    exists (u ++ v), s2, g'. rewrite append_assoc, length_append, Nat.add_assoc.
    repeat split; auto. simpl. now exists u, v, gm.
  - destruct (exec fl r1 i s g k) as [y|] eqn:H1.
    + injection H as ->.
      destruct (IH1 _ _ _ _ _ _ H1) as (s1 & s2 & g' & E & M & K).
      exists s1, s2, g'. simpl. auto.
    + destruct (IH2 _ _ _ _ _ _ H) as (s1 & s2 & g' & E & M & K).
      exists s1, s2, g'. simpl. auto.
  - destruct (IH _ _ _ _ _ _ H) as (s1 & s2 & gm & -> & M & K).
    replace (i + String.length s1 - i) with (String.length s1) in K by lia.
    rewrite substring_prefix in K.
    exists s1, s2, ((n, s1) :: gm). simpl. repeat split; auto. now exists gm.
  - destruct (Nat.eqb_spec i 0) as [->|]; [|discriminate].
    exists EmptyString, s, g. simpl. auto.
  - destruct (at_end s) eqn:Hend; [|discriminate].
    exists EmptyString, s, g. simpl. rewrite Nat.add_0_r. auto.
Qed.

(** Completeness, for success: where the pattern covers a part of the
    text and the continuation accepts what follows, whatever the groups,
    the matcher finds a match (maybe another one). *)
Lemma rep_complete {A} (a : atom) (k : kont A) (g : groups) :
  forall s1 s2 lo hi i,
    matches fl (Rep a lo hi) i s1 s2 g g ->
    succeeds (k (i + String.length s1) s2 g) = true ->
    succeeds (rep fl a lo hi i (s1 ++ s2) g k) = true.
Proof.
  induction s1 as [|c s1 IH]; intros s2 lo hi i (Hall & Hlo & Hhi & _) K.
  - simpl in Hlo, K. rewrite Nat.add_0_r in K.
    assert (lo = 0) as -> by lia. cbn [append].
    destruct s2 as [|d s2]; cbn [rep Nat.eqb].
    + now destruct hi as [[|h]|].
    + destruct hi as [[|h]|]; auto;
        destruct (atom_match fl a d); auto;
        now destruct (rep fl a _ _ _ s2 g k).
  - simpl in Hall, Hlo, Hhi, K. apply andb_true_iff in Hall as [Hc Hall].
    rewrite <- plus_n_Sm in K.
    assert (Hrec : succeeds (rep fl a (pred lo) (option_map pred hi) (S i)
                               (s1 ++ s2) g k) = true).
    { apply IH; [|exact K]. simpl. repeat split; auto; [lia|].
      destruct hi as [h|]; simpl; [lia | exact I]. }
    cbn [append rep]. rewrite Hc.
    destruct hi as [[|h]|]; [lia | |];
      now destruct (rep fl a (pred lo) _ (S i) (s1 ++ s2) g k).
Qed.

Lemma exec_complete (r : regex) :
  forall {A} (k : kont A) i s1 s2 g0 g0',
    matches fl r i s1 s2 g0 g0' ->
    (forall h, succeeds (k (i + String.length s1) s2 h) = true) ->
    forall g, succeeds (exec fl r i (s1 ++ s2) g k) = true.
Proof.
  induction r as [|a|a lo hi|r1 IH1 r2 IH2|r1 IH1 r2 IH2|n r IH| |];
    intros A k i s1 s2 g0 g0' M K g; cbn [exec]; simpl in M.
  - destruct M as [-> _]. simpl in *. rewrite Nat.add_0_r in K. apply K.
  - destruct M as (c & -> & Hc & _). simpl in *. rewrite Hc.
    rewrite Nat.add_1_r in K. apply K.
  - destruct M as (Hall & Hlo & Hhi & _).
    apply rep_complete; [|apply K]. simpl. auto.
  - destruct M as (u & v & gm & -> & M1 & M2). rewrite append_assoc.
    apply (IH1 _ _ _ _ _ _ _ M1). intros h.
    apply (IH2 _ _ _ _ _ _ _ M2). intros h'.
    rewrite length_append, Nat.add_assoc in K. apply K.
  - destruct M as [M|M].
    + pose proof (IH1 _ k _ _ _ _ _ M K g) as H.
      now destruct (exec fl r1 i (s1 ++ s2) g k).
    + pose proof (IH2 _ k _ _ _ _ _ M K g) as H.
      now destruct (exec fl r1 i (s1 ++ s2) g k).
  - destruct M as (gm & M & _). apply (IH _ _ _ _ _ _ _ M). intros h. apply K.
  - destruct M as (-> & -> & _). simpl in *. apply K.
  - destruct M as (-> & Hend & _). simpl in *. rewrite Hend.
    rewrite Nat.add_0_r in K. apply K.
Qed.

Lemma match_at_sound (r : regex) (i : nat) (s : string) (m : match_obj) :
  match_at fl r i s = Some m ->
  exists s1 s2,
    s = s1 ++ s2
    /\ matches fl r i s1 s2 [] (m_groups m)
    /\ m_start m = i
    /\ m_end m = i + String.length s1.
Proof.
  unfold match_at. intros H.
  destruct (exec_sound r _ _ _ _ _ H) as (s1 & s2 & g' & E & M & K).
  injection K as <-. now exists s1, s2.
Qed.

Lemma match_at_complete (r : regex) (i : nat) (s1 s2 : string) (g g' : groups) :
  matches fl r i s1 s2 g g' -> match_at fl r i (s1 ++ s2) <> None.
Proof.
  intros M. unfold match_at.
  pose proof (exec_complete r (fun j _ h => Some (Match i j h)) i s1 s2 g g' M
                (fun h => eq_refl) []) as H.
  intros E. rewrite E in H. discriminate.
Qed.

(** [re.search] answers with the leftmost place where the pattern
    occurs. *)
Lemma search_from_first (r : regex) (s : string) :
  forall i m,
    search_from fl r i s = Some m ->
    exists skipped s1 s2,
      s = skipped ++ s1 ++ s2
      /\ matches fl r (i + String.length skipped) s1 s2 [] (m_groups m)
      /\ m_start m = i + String.length skipped
      /\ m_end m = m_start m + String.length s1
      /\ forall p t1 t2 g',
           s = p ++ t1 ++ t2 ->
           matches fl r (i + String.length p) t1 t2 [] g' ->
           String.length skipped <= String.length p.
Proof.
  induction s as [|c s IH]; intros i m H; cbn [search_from] in H.
  - destruct (match_at fl r i EmptyString) as [m'|] eqn:Hat; [|discriminate].
    injection H as ->.
    destruct (match_at_sound _ _ _ _ Hat) as (s1 & s2 & E & M & St & En).
    exists EmptyString, s1, s2. simpl. rewrite Nat.add_0_r.
    repeat split; auto; [congruence | lia].
  - destruct (match_at fl r i (String c s)) as [m'|] eqn:Hat.
    + injection H as ->.
      destruct (match_at_sound _ _ _ _ Hat) as (s1 & s2 & E & M & St & En).
      exists EmptyString, s1, s2. simpl. rewrite Nat.add_0_r.
      repeat split; auto; [congruence | lia].
    + destruct (IH _ _ H) as (skipped & s1 & s2 & E & M & St & En & Least).
      exists (String c skipped), s1, s2. cbn [String.length append].
      rewrite <- plus_n_Sm. rewrite E.
      repeat split; auto.
      intros [|d p] t1 t2 g' Ep Mp.
      * exfalso. simpl in Ep, Mp. rewrite Nat.add_0_r in Mp.
        apply (match_at_complete _ _ _ _ _ _ Mp). rewrite <- Ep, <- E. exact Hat.
      * simpl in Ep. injection Ep as -> Ep. simpl in Mp |- *.
        rewrite <- plus_n_Sm in Mp. rewrite <- E in Ep.
        specialize (Least _ _ _ _ Ep Mp). lia.
Qed.

Lemma search_from_none (r : regex) (s : string) :
  forall i,
    search_from fl r i s = None ->
    forall p t1 t2 g g',
      s = p ++ t1 ++ t2 -> ~ matches fl r (i + String.length p) t1 t2 g g'.
Proof.
  induction s as [|c s IH]; intros i H p t1 t2 g g' E M; cbn [search_from] in H.
  - destruct (match_at fl r i EmptyString) eqn:Hat; [discriminate|].
    destruct p; [|discriminate]. simpl in E, M. rewrite Nat.add_0_r in M.
    apply (match_at_complete _ _ _ _ _ _ M). now rewrite <- E.
  - destruct (match_at fl r i (String c s)) eqn:Hat; [discriminate|].
    destruct p as [|d p].
    + simpl in E, M. rewrite Nat.add_0_r in M.
      apply (match_at_complete _ _ _ _ _ _ M). now rewrite <- E.
    + simpl in E. injection E as -> E. simpl in M. rewrite <- plus_n_Sm in M.
      exact (IH _ H _ _ _ _ _ E M).
Qed.

(** A literal prefix of a pattern covers a text of the same letters. *)
Lemma matches_lit_seq (w : string) (rest : regex) :
  forall i s1 s2 g g',
    matches fl (lit_seq w rest) i s1 s2 g g'
    <-> exists kw t,
          s1 = kw ++ t
          /\ same_text fl kw w
          /\ matches fl rest (i + String.length w) t s2 g g'.
Proof.
  unfold same_text.
  induction w as [|c w IH]; intros i s1 s2 g g'; cbn [lit_seq].
  - simpl. rewrite Nat.add_0_r. split.
    + intros M. exists EmptyString, s1. destruct (ignorecase fl); auto.
    + intros (kw & t & -> & Hkw & M).
      assert (kw = EmptyString) as ->; [|exact M].
      destruct (ignorecase fl); [|exact Hkw]. now destruct kw.
  - cbn [matches]. split.
    + intros (u & v & gm & -> & (d & -> & Hd & ->) & M).
      apply IH in M as (kw & t & -> & Hkw & M).
      exists (String d kw), t. cbn [String.length append] in *.
      replace (i + S (String.length w)) with (i + 1 + String.length w) by lia.
      repeat split; auto.
      simpl in Hd. destruct (ignorecase fl).
      * apply Ascii.eqb_eq in Hd. simpl. now rewrite Hd, Hkw.
      * apply Ascii.eqb_eq in Hd. now rewrite Hd, Hkw.
    + intros (kw & t & -> & Hkw & M).
      assert (exists d kw', kw = String d kw'
                            /\ atom_match fl (ALit c) d = true
                            /\ (if ignorecase fl
                                then lowercase kw' = lowercase w else kw' = w))
        as (d & kw' & -> & Hd & Hkw').
      { simpl. destruct (ignorecase fl).
        - destruct kw as [|d kw']; [discriminate|]. simpl in Hkw.
          injection Hkw as Hd Hkw. exists d, kw'. rewrite Hd.
          now rewrite Ascii.eqb_refl.
        - subst kw. exists c, w. now rewrite Ascii.eqb_refl. }
      exists (String d EmptyString), (kw' ++ t), g. cbn [append String.length].
      repeat split.
      * now exists d.
      * apply IH. exists kw', t. cbn [String.length] in M.
        replace (i + 1 + String.length w) with (i + S (String.length w)) by lia.
        auto.
Qed.

Lemma all_match_ext (a : atom) (p : ascii -> bool) (s : string) :
  (forall c, atom_match fl a c = p c) -> all_match fl a s = string_forall p s.
Proof.
  intros H. induction s as [|c s IH]; simpl; [reflexivity|].
  now rewrite H, IH.
Qed.

End Matcher.

(* ================================================================= *)
(** ** The naming check *)

Section Naming.

Lemma name_pattern_compiles : re_compile name_pattern = Some name_regex.
Proof. vm_compute. reflexivity. Qed.

Lemma squote_only (c : ascii) : Ascii.eqb c squote = true -> c = squote.
Proof. apply Ascii.eqb_eq. Qed.

Lemma length_positive (s : string) : 1 <= String.length s <-> s <> EmptyString.
Proof. destruct s; simpl; split; intros H; try congruence; lia. Qed.

(** What [name_pattern] covers: the word [name:], white space, and a
    quoted value, which is group 1. *)
Lemma name_matches (i : nat) (s1 s2 : string) (g' : groups) :
  matches NOFLAGS name_regex i s1 s2 [] g'
  <-> exists spaces value,
        s1 = "name:" ++ spaces ++ "'" ++ value ++ "'"
        /\ string_forall is_space spaces = true
        /\ value <> EmptyString
        /\ string_forall not_squote value = true
        /\ g' = [(1, value)].
Proof.
  unfold name_regex. rewrite matches_lit_seq. unfold same_text. cbn [ignorecase NOFLAGS].
  assert (Hsp : forall s, all_match NOFLAGS ASpace s = string_forall is_space s)
    by (intros s; now apply all_match_ext).
  assert (Hnq : forall s, all_match NOFLAGS (ASet true [SChar squote]) s
                          = string_forall not_squote s).
  { intros s. apply all_match_ext. intros c. unfold not_squote. simpl.
    now rewrite orb_false_r. }
  split.
  - intros (kw & t & -> & -> & M). cbn [matches] in M.
    destruct M as (sp & t1 & gm1 & -> & (Hspaces & _ & _ & ->) & M).
    destruct M as (q1 & t2 & gm2 & -> & (c1 & -> & Hc1 & ->) & M).
    destruct M as (val & t3 & gm3 & -> & (gm4 & Mv & ->) & M).
    destruct Mv as (val' & e & gm5 & -> & (Hval & Hlen & _ & ->) & (-> & ->)).
    destruct M as (q2 & e & gm6 & -> & (c2 & -> & Hc2 & ->) & (-> & ->)).
    simpl in Hc1, Hc2. apply squote_only in Hc1, Hc2. subst c1 c2.
    rewrite append_nil_r in *. exists sp, val'.
    rewrite Hsp in Hspaces. rewrite Hnq in Hval.
    apply length_positive in Hlen. repeat split; auto.
  - intros (sp & val & -> & Hspaces & Hne & Hval & ->).
    exists "name:", (sp ++ "'" ++ val ++ "'"). repeat split.
    cbn [matches].
    exists sp, ("'" ++ val ++ "'"), []. repeat split; [now rewrite Hsp | lia|].
    exists "'", (val ++ "'"), []. repeat split; [now exists squote|].
    exists val, "'", [(1, val)]. repeat split.
    + exists []. split; [|reflexivity].
      exists val, EmptyString, []. rewrite append_nil_r, Hnq.
      apply length_positive in Hne. repeat split; auto.
    + exists "'", EmptyString, [(1, val)]. repeat split. now exists squote.
Qed.

Lemma occurrence_shape (before spaces value after : string) :
  before ++ "name:" ++ spaces ++ "'" ++ value ++ "'" ++ after
  = before ++ ("name:" ++ spaces ++ "'" ++ value ++ "'") ++ after.
Proof.
  simpl. repeat (rewrite append_assoc; simpl). reflexivity.
Qed.

(** The name validated is the value of the first [name: '...'] property
    of the document, wherever it stands. *)
Lemma first_name_spec (content : string) :
  match first_name content with
  | Some value =>
      exists before,
        name_property_at content before value
        /\ forall before' value',
             name_property_at content before' value' ->
             String.length before <= String.length before'
  | None => forall before value, ~ name_property_at content before value
  end.
Proof.
  unfold first_name, re_search. rewrite name_pattern_compiles.
  destruct (search_from NOFLAGS name_regex 0 content) as [m|] eqn:Hs.
  - destruct (search_from_first _ _ _ _ _ Hs)
      as (before & s1 & s2 & E & M & _ & _ & Least).
    apply (proj1 (name_matches _ _ _ _)) in M
      as (sp & val & -> & Hsp & Hne & Hval & G).
    assert (group m 1 = val) as -> by (unfold group; now rewrite G).
    exists before. split.
    + exists sp, s2. rewrite occurrence_shape. auto.
    + intros before' value' (sp' & after' & E' & Hsp' & Hne' & Hval').
      rewrite occurrence_shape in E'.
      apply (Least before' _ after' [(1, value')] E').
      apply name_matches. now exists sp', value'.
  - intros before value (sp & after & E & Hsp & Hne & Hval).
    rewrite occurrence_shape in E.
    apply (search_from_none _ _ _ _ Hs before _ after [] [(1, value)] E).
    apply name_matches. now exists sp, value.
Qed.

Lemma naming_type_not_empty (resource_type naming_type : string) :
  dict_get type_mapping resource_type = Some naming_type ->
  String.eqb naming_type EmptyString = false.
Proof.
  unfold type_mapping. cbn [dict_get].
  repeat match goal with
         | |- context [String.eqb ?k resource_type] =>
             destruct (String.eqb k resource_type)
         end;
    intros H; try discriminate; injection H as <-; reflexivity.
Qed.

Lemma naming_step_spec (content file_path : string)
    (self : AzureConfigChecker) (resource : string * string) :
  naming_step content file_path self resource
  = Self (errors self)
         (warnings self
          ++ declaration_warning file_path (first_name content) resource)%list.
Proof.
  destruct self as [e w], resource as [resource_name resource_type].
  unfold naming_step, declaration_warning, naming_category, first_name.
  cbn [fst snd errors warnings].
  destruct (dict_get type_mapping resource_type) as [naming_type|] eqn:Ht;
    [|now rewrite app_nil_r].
  rewrite (naming_type_not_empty _ _ Ht). cbn [negb].
  destruct (dict_get naming_rules naming_type) as [pat|];
    [|now rewrite app_nil_r].
  destruct (re_search name_pattern content NOFLAGS) as [m|];
    [|now rewrite app_nil_r].
  destruct (found (re_match pat (group m 1))); cbn [negb];
    [now rewrite app_nil_r | reflexivity].
Qed.

(** The whole pass: errors untouched, and one possible warning per
    declaration, all judged on the same name. *)
Lemma naming_findings (content file_path : string) (self : AzureConfigChecker) :
  _check_naming_conventions content file_path self
  = Self (errors self)
         (warnings self
          ++ flat_map (declaration_warning file_path (first_name content))
               (re_findall resource_pattern content))%list.
Proof.
  unfold _check_naming_conventions.
  generalize (re_findall resource_pattern content) as resources.
  intros resources. revert self.
  induction resources as [|d resources IH]; intros self; cbn [fold_left flat_map].
  - destruct self. simpl. now rewrite app_nil_r.
  - rewrite IH, naming_step_spec. cbn [errors warnings].
    now rewrite app_assoc.
Qed.

End Naming.

(** C5.  The naming check adds warnings only, one at most per
    declaration, and judges every declaration that maps to a naming
    category on one and the same name: the value of the first
    [name: '...'] property of the whole document (none when the document
    has no such property).  So in a document with a well-named storage
    account followed by a well-named key vault, the key vault is warned
    about, judged on the name of the storage account. *)
Theorem naming_check_uses_first_name (content file_path : string)
    (self : AzureConfigChecker) :
  let self' := _check_naming_conventions content file_path self in
  errors self' = errors self
  /\ warnings self'
     = (warnings self
        ++ flat_map (declaration_warning file_path (first_name content))
             (re_findall resource_pattern content))%list
  /\ match first_name content with
     | Some value =>
         exists before,
           name_property_at content before value
           /\ forall before' value',
                name_property_at content before' value' ->
                String.length before <= String.length before'
     | None => forall before value, ~ name_property_at content before value
     end
  /\ first_name doc_two_resources = Some "st123"
  /\ _check_naming_conventions doc_two_resources file_path __init__
     = Self [] [naming_warning file_path "kv" "Microsoft.KeyVault/vaults"
                  "^kv-[a-z0-9-]+$"].
Proof.
  cbv zeta. split; [|split; [|split; [|split]]].
  - now rewrite naming_findings.
  - now rewrite naming_findings.
  - apply first_name_spec.
  - vm_compute. reflexivity.
  - rewrite naming_findings. vm_compute. reflexivity.
Qed.

Lemma naming_check_uses_first_name_witness :
  warnings (_check_naming_conventions doc_two_resources "main.bicep" __init__)
  = (warnings __init__
     ++ flat_map (declaration_warning "main.bicep"
                    (first_name doc_two_resources))
          (re_findall resource_pattern doc_two_resources))%list
  /\ first_name doc_two_resources = Some "st123".
Proof.
  split.
  - exact (proj1 (proj2 (naming_check_uses_first_name doc_two_resources
                           "main.bicep" __init__))).
  - exact (proj1 (proj2 (proj2 (proj2 (naming_check_uses_first_name
                                         doc_two_resources "main.bicep"
                                         __init__))))).
Defined.

(** C2, counterexample to the sentence of the specification: the
    declared name [storage1] fits the storage-account pattern, and no
    warning is produced for it. *)
Lemma storage1_is_accepted :
  first_name (doc_storage "storage1") = Some "storage1"
  /\ re_findall resource_pattern (doc_storage "storage1")
     = [("sa", "Microsoft.Storage/storageAccounts")]
  /\ found (re_match "^st[a-z0-9]{3,22}$" "storage1") = true
  /\ warnings (_check_naming_conventions (doc_storage "storage1")
                 "main.bicep" __init__) = [].
Proof. repeat split; vm_compute; reflexivity. Qed.

(* ================================================================= *)
(** ** The hardcoded-value check *)

Section Hardcoded.

Ltac by_cases_on c :=
  destruct c as [[] [] [] [] [] [] [] []]; reflexivity.

Lemma sign_set (c : ascii) :
  atom_match IGNORECASE (ASet false [SChar ":"; SChar "="]) c = is_sign c.
Proof. by_cases_on c. Qed.

Lemma quote_set (c : ascii) :
  atom_match IGNORECASE (ASet false [SChar squote; SChar dquote]) c
  = is_quote c.
Proof. by_cases_on c. Qed.

Lemma no_quote_set (c : ascii) :
  atom_match IGNORECASE (ASet true [SChar squote; SChar dquote]) c
  = not_quote c.
Proof. by_cases_on c. Qed.

Lemma dot_atom (c : ascii) : atom_match IGNORECASE ADot c = not_newline c.
Proof. reflexivity. Qed.

(** What the common tail of the five patterns covers. *)
Lemma tail_matches (n i : nat) (s1 s2 : string) (g g' : groups) :
  matches IGNORECASE (quoted_tail_regex n) i s1 s2 g g'
  <-> exists gap1 sign gap2 q1 body q2,
        s1 = gap1 ++ String sign (gap2 ++ String q1 (body ++ String q2 EmptyString))
        /\ string_forall not_newline gap1 = true
        /\ is_sign sign = true
        /\ string_forall not_newline gap2 = true
        /\ is_quote q1 = true
        /\ string_forall not_quote body = true
        /\ n <= String.length body
        /\ is_quote q2 = true
        /\ g' = g.
Proof.
  assert (Hdot : forall s, all_match IGNORECASE ADot s
                           = string_forall not_newline s)
    by (intros s; apply all_match_ext, dot_atom).
  assert (Hnq : forall s,
             all_match IGNORECASE (ASet true [SChar squote; SChar dquote]) s
             = string_forall not_quote s)
    by (intros s; apply all_match_ext, no_quote_set).
  unfold quoted_tail_regex. cbn [matches]. split.
  - intros (gap1 & t1 & gm1 & -> & (Hgap1 & _ & _ & ->) & M).
    destruct M as (u & t2 & gm2 & -> & (sign & -> & Hsign & ->) & M).
    destruct M as (gap2 & t3 & gm3 & -> & (Hgap2 & _ & _ & ->) & M).
    destruct M as (u & t4 & gm4 & -> & (q1 & -> & Hq1 & ->) & M).
    destruct M as (body & t5 & gm5 & -> & (Hbody & Hlen & _ & ->) & M).
    destruct M as (u & e & gm6 & -> & (q2 & -> & Hq2 & ->) & (-> & ->)).
    rewrite sign_set in Hsign. rewrite quote_set in Hq1, Hq2.
    rewrite Hdot in Hgap1, Hgap2. rewrite Hnq in Hbody.
    exists gap1, sign, gap2, q1, body, q2. repeat split; auto.
  - intros (gap1 & sign & gap2 & q1 & body & q2
            & -> & Hgap1 & Hsign & Hgap2 & Hq1 & Hbody & Hlen & Hq2 & ->).
    exists gap1, (String sign (gap2 ++ String q1 (body ++ String q2 EmptyString))), g.
    repeat split; [now rewrite Hdot | lia |].
    exists (String sign EmptyString),
      (gap2 ++ String q1 (body ++ String q2 EmptyString)), g.
    repeat split; [exists sign; now rewrite sign_set |].
    exists gap2, (String q1 (body ++ String q2 EmptyString)), g.
    repeat split; [now rewrite Hdot | lia |].
    exists (String q1 EmptyString), (body ++ String q2 EmptyString), g.
    repeat split; [exists q1; now rewrite quote_set |].
    exists body, (String q2 EmptyString), g.
    repeat split; [now rewrite Hnq | exact Hlen |].
    exists (String q2 EmptyString), EmptyString, g.
    repeat split. exists q2. now rewrite quote_set.
Qed.

Lemma assignment_shape (before kw gap1 gap2 body after : string)
    (sign q1 q2 : ascii) :
  before ++ kw ++ gap1
    ++ String sign (gap2 ++ String q1 (body ++ String q2 after))
  = before
      ++ (kw ++ gap1
            ++ String sign (gap2 ++ String q1 (body ++ String q2 EmptyString)))
      ++ after.
Proof.
  f_equal. rewrite !append_assoc. do 2 f_equal. simpl. f_equal.
  rewrite append_assoc. f_equal. simpl. f_equal. rewrite append_assoc.
  reflexivity.
Qed.

(** [re.search] with a compiled pattern of the check finds something
    exactly when the document holds the keyword followed by such a run
    between quote characters. *)
Lemma hardcoded_search (keyword : string) (n : nat) (content : string) :
  found (search_from IGNORECASE (lit_seq keyword (quoted_tail_regex n)) 0
           content) = true
  <-> quoted_run_after keyword n content.
Proof.
  split.
  - destruct (search_from _ _ 0 content) as [m|] eqn:Hs; [|discriminate].
    intros _.
    destruct (search_from_first _ _ _ _ _ Hs)
      as (before & s1 & s2 & E & M & _).
    apply (proj1 (matches_lit_seq _ _ _ _ _ _ _ _)) in M
      as (kw & t & -> & Hkw & M).
    apply (proj1 (tail_matches _ _ _ _ _ _)) in M
      as (gap1 & sign & gap2 & q1 & body & q2 & -> & H).
    exists before, kw, gap1, sign, gap2, q1, body, q2, s2.
    rewrite assignment_shape. split; [exact E|]. unfold same_text in Hkw.
    simpl in Hkw. tauto.
  - intros (before & kw & gap1 & sign & gap2 & q1 & body & q2 & after & E & Hkw
            & H).
    destruct (search_from _ _ 0 content) as [m|] eqn:Hs; [reflexivity|].
    exfalso. rewrite assignment_shape in E.
    apply (search_from_none _ _ _ _ Hs before _ after [] [] E).
    apply matches_lit_seq.
    exists kw, (gap1 ++ String sign
                  (gap2 ++ String q1 (body ++ String q2 EmptyString))).
    repeat split; [exact Hkw|].
    apply tail_matches. exists gap1, sign, gap2, q1, body, q2. tauto.
Qed.

(** The five patterns are a keyword followed by the common tail. *)
Lemma hardcoded_patterns_compile :
  map (fun item => (re_compile (fst item), snd item)) hardcoded_patterns
  = map (fun item =>
           (Some (lit_seq (fst (fst item)) (quoted_tail_regex (snd (fst item)))),
            snd item))
        hardcoded_keywords.
Proof. vm_compute. reflexivity. Qed.

Variables content file_path : string.

Let line (msg : string) : string := file_path ++ ": " ++ msg.

(** Whether the pattern of the keyword is found, as the matcher decides
    it. *)
Let hit (keyword : string) (n : nat) : bool :=
  found (search_from IGNORECASE (lit_seq keyword (quoted_tail_regex n)) 0
           content).

Lemma hardcoded_findings :
  _check_hardcoded_values content file_path __init__
  = Self
      (flat_map (fun item =>
                   if hit (fst (fst item)) (snd (fst item))
                   then [line (snd item)] else [])
                hardcoded_keywords)
      [].
Proof.
  unfold _check_hardcoded_values, hit.
  assert (Hstep : forall pat kw n msg self,
             re_compile pat = Some (lit_seq kw (quoted_tail_regex n)) ->
             hardcoded_step content file_path self (pat, msg)
             = Self (errors self
                     ++ (if found (search_from IGNORECASE
                                     (lit_seq kw (quoted_tail_regex n)) 0 content)
                         then [line msg] else []))%list
                    (warnings self)).
  { intros pat kw n msg [e w] Hc. unfold hardcoded_step, re_search.
    rewrite Hc. unfold line, errors_append.
    destruct (found _); simpl; [reflexivity | now rewrite app_nil_r]. }
  unfold hardcoded_patterns, hardcoded_keywords.
  cbn [fold_left flat_map fst snd].
  assert (H1 : re_compile ("password" ++ quoted_tail "{8,}")
               = Some (lit_seq "password" (quoted_tail_regex 8)))
    by (vm_compute; reflexivity).
  assert (H2 : re_compile ("connectionString" ++ quoted_tail "+")
               = Some (lit_seq "connectionString" (quoted_tail_regex 1)))
    by (vm_compute; reflexivity).
  assert (H3 : re_compile ("apiKey" ++ quoted_tail "+")
               = Some (lit_seq "apiKey" (quoted_tail_regex 1)))
    by (vm_compute; reflexivity).
  assert (H4 : re_compile ("secret" ++ quoted_tail "+")
               = Some (lit_seq "secret" (quoted_tail_regex 1)))
    by (vm_compute; reflexivity).
  assert (H5 : re_compile ("token" ++ quoted_tail "+")
               = Some (lit_seq "token" (quoted_tail_regex 1)))
    by (vm_compute; reflexivity).
  rewrite (Hstep _ _ _ _ _ H1), (Hstep _ _ _ _ _ H2), (Hstep _ _ _ _ _ H3),
    (Hstep _ _ _ _ _ H4), (Hstep _ _ _ _ _ H5).
  cbn [errors warnings __init__ app]. now rewrite <- !app_assoc, app_nil_r.
Qed.

(** C4 (as amended).  The hardcoded-value check adds errors only.  For
    each of its five keywords it adds the keyword's line once when the
    document holds, however often, the keyword followed on its line by
    an assignment sign and a quote character, then a run of characters
    that are not quotes, then a quote character ([quoted_run_after]),
    and not at all otherwise; the run must have 8 characters or more
    for [password] and one or more for [connectionString], [apiKey],
    [secret] and [token].  On the one line [password = "abcdefgh"] the
    check yields exactly one error, on [password = "short"] none. *)
Theorem hardcoded_value_findings (self : AzureConfigChecker) :
  let self' := _check_hardcoded_values content file_path self in
  warnings self' = warnings self
  /\ (forall keyword n msg,
         In (keyword, n, msg) hardcoded_keywords ->
         (quoted_run_after keyword n content ->
          count (errors self') (line msg) = count (errors self) (line msg) + 1)
         /\ (~ quoted_run_after keyword n content ->
             count (errors self') (line msg) = count (errors self) (line msg)))
  /\ In ("password", 8, "Possible hardcoded password") hardcoded_keywords
  /\ (forall keyword n msg,
         In (keyword, n, msg) hardcoded_keywords ->
         keyword <> "password" -> n = 1)
  /\ errors (_check_hardcoded_values (doc_password "abcdefgh") file_path
               __init__)
     = [line "Possible hardcoded password"]
  /\ errors (_check_hardcoded_values (doc_password "short") file_path __init__)
     = [].
Proof.
  cbv zeta. split; [|split; [|split; [|split; [|split]]]].
  - rewrite (appends_hardcoded content file_path self), hardcoded_findings.
    cbn [warnings]. apply app_nil_r.
  - intros keyword n msg Hin.
    rewrite (appends_hardcoded content file_path self), hardcoded_findings.
    cbn [errors]. rewrite count_app.
    assert (Hhit : hit keyword n = true <-> quoted_run_after keyword n content)
      by apply hardcoded_search.
    assert (Hcount :
              count (flat_map (fun item =>
                                 if hit (fst (fst item)) (snd (fst item))
                                 then [line (snd item)] else [])
                              hardcoded_keywords) (line msg)
              = if hit keyword n then 1 else 0).
    { unfold hardcoded_keywords in *. cbn [flat_map fst snd]. simpl in Hin.
      repeat (destruct Hin as [Hin|Hin]; [injection Hin as <- <- <-|]);
        [..|contradiction];
        repeat match goal with
               | |- context [hit ?k ?m] => destruct (hit k m)
               end;
        cbn [app]; unfold line;
        repeat (rewrite count_cons_same
                || rewrite (count_cons_other file_path) by discriminate);
        reflexivity. }
    rewrite Hcount. split.
    + intros Hq. apply Hhit in Hq. now rewrite Hq.
    + intros Hq. destruct (hit keyword n); [|lia].
      exfalso. apply Hq, Hhit. reflexivity.
  - cbv. tauto.
  - intros keyword n msg Hin Hne. simpl in Hin.
    repeat (destruct Hin as [Hin|Hin];
            [injection Hin as <- <- <-; try reflexivity; now exfalso|]).
    contradiction.
  - vm_compute. reflexivity.
  - vm_compute. reflexivity.
Qed.

End Hardcoded.

Lemma hardcoded_value_findings_witness :
  count (errors (_check_hardcoded_values (doc_assignment "secret" "x")
                   "main.bicep" __init__))
        "main.bicep: Possible hardcoded secret" = 0 + 1
  /\ count (errors (_check_hardcoded_values (doc_password "1234567")
                      "main.bicep" __init__))
           "main.bicep: Possible hardcoded password" = 0.
Proof.
  split.
  - apply (proj1 (proj2 (hardcoded_value_findings (doc_assignment "secret" "x")
                           "main.bicep" __init__))
             "secret" 1 "Possible hardcoded secret").
    + cbv. tauto.
    + apply hardcoded_search. vm_compute. reflexivity.
  - apply (proj1 (proj2 (hardcoded_value_findings (doc_password "1234567")
                           "main.bicep" __init__))
             "password" 8 "Possible hardcoded password").
    + cbv. tauto.
    + intros H. apply hardcoded_search in H. vm_compute in H. discriminate.
Defined.

(* ================================================================= *)
(** ** Further properties: the arguments and the run of [main] *)

Section Arguments.

Lemma substring_all (s : string) : substring 0 (String.length s) s = s.
Proof. induction s as [|c s IH]; simpl; [reflexivity | now rewrite IH]. Qed.

Lemma substring_skip (a b : string) :
  substring (String.length a) (String.length b) (a ++ b) = b.
Proof. induction a as [|c a IH]; simpl; [apply substring_all | exact IH]. Qed.

Lemma substring_split (s : string) :
  forall k, k <= String.length s ->
            s = substring 0 k s ++ substring k (String.length s - k) s.
Proof.
  induction s as [|c s IH]; intros k Hk.
  - simpl in Hk. assert (k = 0) as -> by lia. reflexivity.
  - destruct k as [|k].
    + cbn [substring String.length Nat.sub append]. now rewrite substring_all.
    + cbn [substring String.length Nat.sub append]. simpl in Hk.
      f_equal. apply IH. lia.
Qed.

(** [str.endswith] holds exactly of the texts that are a stem followed
    by the suffix. *)
Lemma endswith_spec (s suffix : string) :
  endswith s suffix = true <-> exists stem, s = stem ++ suffix.
Proof.
  unfold endswith. rewrite andb_true_iff, Nat.leb_le, String.eqb_eq. split.
  - intros [Hle E].
    exists (substring 0 (String.length s - String.length suffix) s).
    pose proof (substring_split s (String.length s - String.length suffix)
                  ltac:(lia)) as Hs.
    replace (String.length s - (String.length s - String.length suffix))
      with (String.length suffix) in Hs by lia.
    now rewrite E in Hs.
  - intros [stem ->]. rewrite length_append. split; [lia|].
    replace (String.length stem + String.length suffix - String.length suffix)
      with (String.length stem) by lia.
    apply substring_skip.
Qed.

End Arguments.

Section Run.

Variable fs : filesystem.

Lemma opened_app (t1 t2 : list event) :
  opened (t1 ++ t2) = (opened t1 ++ opened t2)%list.
Proof.
  induction t1 as [|[p|l] t1 IH]; simpl; [reflexivity | now rewrite IH | exact IH].
Qed.

Lemma opened_file_events (file_path : string) :
  opened (file_events fs file_path) = [file_path].
Proof. unfold file_events, check_file. now destruct (fs file_path). Qed.

Lemma opened_print_results (self : AzureConfigChecker) :
  opened (snd (print_results self)) = [].
Proof.
  assert (Hmap : forall l, opened (map (fun x => Print ("  " ++ x)) l) = []).
  { induction l as [|x l IH]; simpl; [reflexivity | exact IH]. }
  unfold print_results. cbn [snd]. rewrite !opened_app.
  destruct (errors self) as [|e es], (warnings self) as [|w ws]; simpl;
    rewrite ?Hmap; reflexivity.
Qed.

Lemma short_argv_qualifies_nothing (argv : list string) :
  List.length argv < 2 -> qualifying argv = [].
Proof.
  destruct argv as [|a [|b argv]]; simpl; intros H; try reflexivity. lia.
Qed.

(** X2.  The files a run opens are the arguments ending in [.bicep], in
    the order given and once for each time they are given; [main] never
    opens anything else. *)
Theorem files_opened_by_main (argv : list string) :
  opened (fst (main fs argv)) = qualifying argv.
Proof.
  destruct (Nat.lt_ge_cases (List.length argv) 2) as [Hlt|Hge].
  - rewrite (short_argv_qualifies_nothing argv Hlt). unfold main.
    destruct (Nat.ltb_spec (List.length argv) 2); [reflexivity | lia].
  - rewrite (main_spec fs argv Hge). cbv zeta.
    pose proof (opened_print_results (final_checker fs argv)) as Hout.
    assert (Hfiles : forall l, opened (flat_map (file_events fs) l) = l).
    { induction l as [|f l IH]; simpl; [reflexivity|].
      now rewrite opened_app, opened_file_events, IH. }
    destruct (print_results (final_checker fs argv)) as [[|] out];
      cbn [fst snd] in *; rewrite !opened_app, Hfiles, Hout;
      cbn [opened tips app]; now rewrite ?app_nil_r.
Qed.

Lemma flat_map_nil {X Y} (f : X -> list Y) (l : list X) :
  flat_map f l = [] <-> forall x, In x l -> f x = [].
Proof.
  induction l as [|x l IH]; simpl.
  - split; [intros _ x [] | reflexivity].
  - split.
    + intros H. apply app_eq_nil in H as [Hx Hl]. rewrite IH in Hl.
      intros y [<-|Hy]; auto.
    + intros H. rewrite (H x (or_introl eq_refl)).
      apply IH. intros y Hy. apply H. now right.
Qed.

Lemma exit_status_binary (argv : list string) :
  snd (main fs argv) = 0 \/ snd (main fs argv) = 1.
Proof.
  unfold main. destruct (List.length argv <? 2)%nat; [now right|].
  destruct (fold_left (main_step fs) (tl argv) _) as [[c b] t].
  destruct (print_results c) as [[|] out]; simpl; auto.
Qed.

Lemma exit_zero_iff (argv : list string) :
  snd (main fs argv) = 0
  <-> 2 <= List.length argv
      /\ forall file_path, In file_path (qualifying argv) ->
                           file_errors fs file_path = [].
Proof.
  destruct (Nat.lt_ge_cases (List.length argv) 2) as [Hlt|Hge].
  - split; [|lia]. unfold main.
    destruct (Nat.ltb_spec (List.length argv) 2); [discriminate | lia].
  - destruct (final_checker_spec fs argv) as [E _].
    rewrite <- flat_map_nil, <- E. split.
    + intros H. split; [exact Hge|].
      destruct (errors (final_checker fs argv)) eqn:Herr; [reflexivity|].
      rewrite (exit_status_nonempty fs argv Hge) in H; [discriminate|].
      rewrite Herr. discriminate.
    + intros [_ H]. now apply exit_status_empty.
Qed.

(** X3.  The exit status is 0 or 1, and it is 0 exactly when at least
    one argument was given and every argument ending in [.bicep] could
    be read and got no error of its own; a file that cannot be read
    always has an error. *)
Theorem exit_status_per_file (argv : list string) :
  (snd (main fs argv) = 0 \/ snd (main fs argv) = 1)
  /\ (snd (main fs argv) = 0
      <-> 2 <= List.length argv
          /\ forall file_path, In file_path (qualifying argv) ->
                               file_errors fs file_path = [])
  /\ (forall file_path reason,
         fs file_path = Raises reason -> file_errors fs file_path <> []).
Proof.
  split; [apply exit_status_binary | split; [apply exit_zero_iff|]].
  intros file_path reason Hfail. unfold file_errors, checked, check_file.
  rewrite Hfail. discriminate.
Qed.

(** X4.  The exit status does not depend on the order of the arguments
    nor on the name the script was started under. *)
Theorem exit_status_ignores_order (prog prog' : string)
    (files files' : list string) :
  Permutation files files' ->
  snd (main fs (prog :: files)) = snd (main fs (prog' :: files')).
Proof.
  intros P.
  assert (Hiff : snd (main fs (prog :: files)) = 0
                 <-> snd (main fs (prog' :: files')) = 0).
  { rewrite !exit_zero_iff. unfold qualifying. cbn [tl List.length].
    rewrite (Permutation_length P). split; intros [Hlen H]; (split; [exact Hlen|]);
      intros f Hf; apply H; rewrite filter_In in *; destruct Hf as [Hf Hq];
      (split; [|exact Hq]).
    - apply (Permutation_in _ (Permutation_sym P) Hf).
    - apply (Permutation_in _ P Hf). }
  destruct (exit_status_binary (prog :: files)) as [H|H],
    (exit_status_binary (prog' :: files')) as [H'|H']; try congruence.
  - apply Hiff in H. congruence.
  - apply Hiff in H'. congruence.
Qed.

Lemma main_step_flag (st : AzureConfigChecker * bool * list event)
    (file_path : string) :
  snd (fst st) = (List.length (errors (fst (fst st))) =? 0)%nat ->
  snd (fst (main_step fs st file_path))
  = (List.length (errors (fst (fst (main_step fs st file_path)))) =? 0)%nat.
Proof.
  destruct st as [[c b] t]. cbn [fst snd]. intros Hb. unfold main_step.
  destruct (endswith file_path ".bicep"); cbn [negb fst snd]; [|exact Hb].
  pose proof (appends_check_file fs file_path c) as Happ.
  unfold checked, check_file in *.
  destruct (fs file_path) as [content|reason]; cbn [fst snd] in *.
  - rewrite Happ at 1. cbn [errors].
    rewrite Happ. cbn [errors]. rewrite Hb.
    destruct (errors c); simpl; [|reflexivity].
    now destruct (errors _).
  - unfold errors_append. cbn [errors]. rewrite length_app. simpl.
    now rewrite Nat.add_1_r.
Qed.

(** X5.  When the loop of [main] is over, its flag [all_passed], which
    [main] never reads again, holds the very verdict [print_results]
    returns: the exit status would be the same had [main] used the
    flag. *)
Theorem all_passed_is_the_verdict (files : list string) :
  let '(checker, all_passed, _) :=
    fold_left (main_step fs) files (__init__, true, []) in
  all_passed = fst (print_results checker).
Proof.
  assert (Hinv : forall st,
             snd (fst st) = (List.length (errors (fst (fst st))) =? 0)%nat ->
             snd (fst (fold_left (main_step fs) files st))
             = (List.length
                  (errors (fst (fst (fold_left (main_step fs) files st)))) =? 0)%nat).
  { induction files as [|f l IH]; intros st Hst; simpl; [exact Hst|].
    apply IH. now apply main_step_flag. }
  specialize (Hinv (__init__, true, []) eq_refl).
  destruct (fold_left (main_step fs) files (__init__, true, [])) as [[c b] t].
  exact Hinv.
Qed.

End Run.

Lemma exit_status_ignores_order_witness :
  snd (main disk ["azure-config-check.py"; "clean.bicep"; "nohttps.bicep"])
  = snd (main disk ["check"; "nohttps.bicep"; "clean.bicep"]).
Proof. apply exit_status_ignores_order. apply perm_swap. Defined.

(* ================================================================= *)
(** ** Further properties: the report *)

Section Report.

(** A line that starts with a newline is no finding line and no
    progress line. *)
Lemma not_a_finding_line (line : string) (l : list string) :
  startswith line nl = true ->
  ~ In (Print line) (map (fun x => Print ("  " ++ x)) l).
Proof.
  intros Hnl Hin. apply in_map_iff in Hin as (x & E & _).
  injection E as <-. vm_compute in Hnl. discriminate.
Qed.

Lemma not_a_progress_line (fs : filesystem) (line : string) (l : list string) :
  startswith line nl = true ->
  ~ In (Print line) (flat_map (file_events fs) l).
Proof.
  intros Hnl Hin. apply in_flat_map in Hin as (f & _ & Hin).
  unfold file_events, check_file in Hin.
  destruct (fs f); simpl in Hin;
    repeat (destruct Hin as [Hin|Hin]; try discriminate; try contradiction).
  injection Hin as <-. vm_compute in Hnl. discriminate.
Qed.

Lemma success_line_printed (self : AzureConfigChecker) :
  In (Print success_line) (snd (print_results self))
  <-> errors self = [] /\ warnings self = [].
Proof.
  assert (Hnl : startswith success_line nl = true) by reflexivity.
  unfold print_results. cbn [snd].
  destruct (errors self) as [|e es], (warnings self) as [|w ws];
    cbn [app]; split.
  - auto.
  - intros _. now left.
  - intros [H|H]; [discriminate|]. rewrite app_nil_r in H.
    now apply (not_a_finding_line _ (w :: ws)) in H.
  - intros [_ H]. discriminate.
  - intros [H|H]; [discriminate|]. rewrite app_nil_r in H.
    now apply (not_a_finding_line _ (e :: es)) in H.
  - intros [H _]. discriminate.
  - intros [H|H]; [discriminate|]. rewrite app_nil_r in H.
    apply in_app_or in H as [H|[H|H]]; [|discriminate|];
      [now apply (not_a_finding_line _ (e :: es)) in H
      |now apply (not_a_finding_line _ (w :: ws)) in H].
  - intros [H _]. discriminate.
Qed.

Lemma tips_heading_not_in_report (self : AzureConfigChecker) :
  ~ In (Print tips_heading) (snd (print_results self)).
Proof.
  assert (Hnl : startswith tips_heading nl = true) by reflexivity.
  unfold print_results. cbn [snd]. intros H.
  apply in_app_or in H as [H|H]; [|apply in_app_or in H as [H|H]].
  - destruct (errors self) as [|e es]; [contradiction|].
    destruct H as [H|H]; [discriminate|].
    now apply (not_a_finding_line _ (e :: es)) in H.
  - destruct (warnings self) as [|w ws]; [contradiction|].
    destruct H as [H|H]; [discriminate|].
    now apply (not_a_finding_line _ (w :: ws)) in H.
  - destruct (errors self), (warnings self); simpl in H;
      try contradiction. destruct H as [H|[]]. discriminate.
Qed.

(** X6.  [print_results] returns [True] exactly when no error was
    recorded; it prints every recorded error and warning, indented by
    two blanks; and it prints the success line only when nothing at all
    was recorded, so not after a run that only has warnings. *)
Theorem report_of_findings (self : AzureConfigChecker) :
  (fst (print_results self) = true <-> errors self = [])
  /\ (forall x, In x (errors self ++ warnings self) ->
                In (Print ("  " ++ x)) (snd (print_results self)))
  /\ (In (Print success_line) (snd (print_results self))
      <-> errors self = [] /\ warnings self = []).
Proof.
  split; [|split; [|apply success_line_printed]].
  - rewrite print_results_verdict. destruct (errors self); split; congruence.
  - intros x Hx. unfold print_results. cbn [snd].
    apply in_app_or in Hx as [Hx|Hx].
    + apply in_or_app. left. destruct (errors self) as [|e es]; [contradiction|].
      right. now apply (in_map (fun y => Print ("  " ++ y))).
    + apply in_or_app. right. apply in_or_app. left.
      destruct (warnings self) as [|w ws]; [contradiction|].
      right. now apply (in_map (fun y => Print ("  " ++ y))).
Qed.

(** X7.  In a run with at least one argument, the tips are printed
    exactly when the exit status is 1, and the success line exactly
    when the run recorded neither an error nor a warning. *)
Theorem closing_lines_of_main (fs : filesystem) (argv : list string) :
  2 <= List.length argv ->
  (In (Print tips_heading) (fst (main fs argv)) <-> snd (main fs argv) = 1)
  /\ (In (Print success_line) (fst (main fs argv))
      <-> errors (final_checker fs argv) = []
          /\ warnings (final_checker fs argv) = []).
Proof.
  intros Hlen. rewrite (main_spec fs argv Hlen). cbv zeta.
  pose proof (success_line_printed (final_checker fs argv)) as Hs.
  pose proof (tips_heading_not_in_report (final_checker fs argv)) as Ht.
  pose proof (print_results_verdict (final_checker fs argv)) as Hv.
  assert (Hp1 := not_a_progress_line fs tips_heading (qualifying argv) eq_refl).
  assert (Hp2 := not_a_progress_line fs success_line (qualifying argv) eq_refl).
  destruct (print_results (final_checker fs argv)) as [[|] out];
    cbn [fst snd] in *.
  - split.
    + split; [|discriminate]. intros H.
      apply in_app_or in H as [H|H]; contradiction.
    + rewrite <- Hs. split.
      * intros H. apply in_app_or in H as [H|H]; [contradiction | exact H].
      * intros H. apply in_or_app. now right.
  - split.
    + split; [reflexivity|]. intros _.
      apply in_or_app. right. apply in_or_app. right. now left.
    + rewrite <- Hs. split.
      * intros H. apply in_app_or in H as [H|H]; [contradiction|].
        apply in_app_or in H as [H|H]; [exact H|].
        simpl in H.
        repeat (destruct H as [H|H]; [discriminate|]). contradiction.
      * intros H. apply in_or_app. right. apply in_or_app. now left.
Qed.

End Report.

Lemma closing_lines_of_main_witness :
  In (Print tips_heading)
     (fst (main disk ["azure-config-check.py"; "nohttps.bicep"])).
Proof.
  apply (proj1 (closing_lines_of_main disk
                  ["azure-config-check.py"; "nohttps.bicep"]
                  ltac:(simpl; lia))).
  vm_compute. reflexivity.
Defined.

(* ================================================================= *)
(** ** Further properties: what the security rules look for *)

Section SecurityChains.

Let fl : flags := flag_or IGNORECASE DOTALL.

Lemma dot_matches_all (s : string) : all_match fl ADot s = true.
Proof. induction s as [|c s IH]; simpl; [reflexivity | exact IH]. Qed.

Lemma chain_sound (ws : list string) :
  forall i s1 s2 g g' gap,
    matches fl (chain_regex ws) i s1 s2 g g' ->
    in_order ws (gap ++ s1 ++ s2).
Proof.
  induction ws as [|w ws IH]; intros i s1 s2 g g' gap M; [exact I|].
  cbn [chain_regex] in M.
  apply (proj1 (matches_lit_seq _ _ _ _ _ _ _ _)) in M
    as (kw & t & -> & Hkw & M).
  unfold same_text in Hkw. simpl in Hkw.
  cbn [in_order]. destruct ws as [|w' ws].
  - destruct M as [-> _]. exists gap, kw, s2.
    rewrite append_nil_r. repeat split; auto.
  - cbn [matches] in M. destruct M as (u & v & gm & -> & _ & M).
    exists gap, kw, (u ++ v ++ s2). repeat split; auto.
    + now rewrite !append_assoc.
    + exact (IH _ _ _ _ _ u M).
Qed.

Lemma chain_complete (ws : list string) :
  ws <> [] ->
  forall s,
    in_order ws s ->
    exists gap s1 s2,
      s = gap ++ s1 ++ s2
      /\ forall i g, matches fl (chain_regex ws) i s1 s2 g g.
Proof.
  induction ws as [|w ws IH]; intros Hne s H; [contradiction|].
  cbn [in_order] in H. destruct H as (gap & kw & rest & -> & Hkw & H).
  destruct ws as [|w' ws].
  - exists gap, kw, rest. split; [reflexivity|]. intros i g.
    cbn [chain_regex]. apply matches_lit_seq.
    exists kw, EmptyString. rewrite append_nil_r. repeat split. exact Hkw.
  - destruct (IH ltac:(discriminate) _ H) as (gap' & s1' & s2' & -> & M).
    exists gap, (kw ++ gap' ++ s1'), s2'. split.
    + now rewrite !append_assoc.
    + intros i g. cbn [chain_regex]. apply matches_lit_seq.
      exists kw, (gap' ++ s1'). repeat split; [exact Hkw|].
      cbn [matches]. exists gap', s1', g. repeat split.
      * apply dot_matches_all.
      * lia.
      * apply M.
Qed.

(** A pattern of words joined by [.*], searched with [re.IGNORECASE]
    and [re.DOTALL], is found exactly when the words stand in the text
    in that order. *)
Lemma chain_search (pat : string) (ws : list string) (content : string) :
  re_compile pat = Some (chain_regex ws) ->
  ws <> [] ->
  (found (re_search pat content fl) = true <-> in_order ws content).
Proof.
  intros Hc Hne. unfold re_search. rewrite Hc. split.
  - destruct (search_from fl (chain_regex ws) 0 content) as [m|] eqn:Hs;
      [|discriminate].
    intros _.
    destruct (search_from_first _ _ _ _ _ Hs) as (gap & s1 & s2 & -> & M & _).
    exact (chain_sound _ _ _ _ _ _ gap M).
  - intros H.
    destruct (search_from fl (chain_regex ws) 0 content) as [m|] eqn:Hs;
      [reflexivity|].
    exfalso. destruct (chain_complete ws Hne _ H) as (gap & s1 & s2 & E & M).
    exact (search_from_none _ _ _ _ Hs gap s1 s2 [] [] E (M _ _)).
Qed.

Variables content file_path : string.

Let line (msg : string) : string := file_path ++ ": " ++ msg.

(** X8.  What the security rules look for: the storage and the
    app-service rule record their error unless [supportsHttpsTrafficOnly]
    (or [httpsOnly]) stands somewhere in the document, in any letter
    case, with [true] anywhere after it, on the same line or lines
    later; the network rule records its error when [securityRules],
    [access], [Allow] and two asterisks follow one another in the
    document, and the firewall rule when [firewallRules],
    [startIpAddress], [0.0.0.0], [endIpAddress] and [255.255.255.255]
    do.  Each error is recorded once. *)
Theorem security_rules_by_words (self : AzureConfigChecker) :
  let self' := _check_security_rules content file_path self in
  forall ws inverted msg,
    In (ws, inverted, msg) security_chains ->
    let violated :=
      if inverted : bool then in_order ws content else ~ in_order ws content in
    (violated ->
     count (errors self') (line msg) = count (errors self) (line msg) + 1)
    /\ (~ violated ->
        count (errors self') (line msg) = count (errors self) (line msg)).
Proof.
  cbv zeta. intros ws inverted msg Hin.
  rewrite (appends_security content file_path self), security_findings.
  cbn [errors]. rewrite !count_app.
  assert (H1 := chain_search "supportsHttpsTrafficOnly.*true"
                  ["supportsHttpsTrafficOnly"; "true"] content
                  ltac:(vm_compute; reflexivity) ltac:(discriminate)).
  assert (H2 := chain_search "httpsOnly.*true" ["httpsOnly"; "true"] content
                  ltac:(vm_compute; reflexivity) ltac:(discriminate)).
  assert (H3 := chain_search "securityRules.*access.*Allow.*\*.*\*"
                  ["securityRules"; "access"; "Allow"; "*"; "*"] content
                  ltac:(vm_compute; reflexivity) ltac:(discriminate)).
  assert (H4 := chain_search
                  "firewallRules.*startIpAddress.*0\.0\.0\.0.*endIpAddress.*255\.255\.255\.255"
                  ["firewallRules"; "startIpAddress"; "0.0.0.0"; "endIpAddress";
                   "255.255.255.255"] content
                  ltac:(vm_compute; reflexivity) ltac:(discriminate)).
  fold fl.
  set (b1 := found (re_search "supportsHttpsTrafficOnly.*true" content fl)) in *.
  set (b2 := found (re_search "httpsOnly.*true" content fl)) in *.
  set (b3 := found (re_search "securityRules.*access.*Allow.*\*.*\*" content fl))
    in *.
  set (b4 := found (re_search
                      "firewallRules.*startIpAddress.*0\.0\.0\.0.*endIpAddress.*255\.255\.255\.255"
                      content fl)) in *.
  unfold security_chains in Hin. simpl in Hin.
  repeat (destruct Hin as [Hin|Hin]; [injection Hin as <- <- <-|]);
    [..|contradiction]; unfold line;
    destruct b1, b2, b3, b4; cbn [app];
    repeat (rewrite count_cons_same
            || rewrite (count_cons_other file_path) by discriminate);
    unfold count; cbn [count_occ];
    split; intros Hv;
    try lia;
    exfalso;
    first [ apply Hv; first [apply H1 | apply H2 | apply H3 | apply H4];
            reflexivity
          | first [apply H1 in Hv | apply H2 in Hv | apply H3 in Hv
                   | apply H4 in Hv]; discriminate
          | apply Hv; intros Hw;
            first [apply H1 in Hw | apply H2 in Hw | apply H3 in Hw
                   | apply H4 in Hw]; discriminate ].
Qed.

(** X9.  The security pass never records a warning, although two rules
    of the catalog have the severity ['warning']: these two are neither
    required nor inverted.  It records four errors at most. *)
Theorem security_pass_adds_errors_only (self : AzureConfigChecker) :
  let self' := _check_security_rules content file_path self in
  warnings self' = warnings self
  /\ List.length (errors self') <= List.length (errors self) + 4.
Proof.
  cbv zeta.
  rewrite (appends_security content file_path self), security_findings.
  cbn [errors warnings]. split; [apply app_nil_r|].
  rewrite length_app.
  repeat match goal with
         | |- context [if ?b then _ else _] => destruct b
         end; simpl; lia.
Qed.

End SecurityChains.

Lemma security_rules_by_words_witness :
  count (errors (_check_security_rules doc_https_off "main.bicep" __init__))
        "main.bicep: App Services should enforce HTTPS only"
  = 0.
Proof.
  apply (proj2 (security_rules_by_words doc_https_off "main.bicep" __init__
                  ["httpsOnly"; "true"] false
                  "App Services should enforce HTTPS only"
                  ltac:(cbv; tauto))).
  intros H. apply H.
  apply (chain_search "httpsOnly.*true" ["httpsOnly"; "true"] doc_https_off
           ltac:(vm_compute; reflexivity) ltac:(discriminate)).
  vm_compute. reflexivity.
Defined.

(* ================================================================= *)
(** ** Further properties: letter case in the two passes that ignore it *)

Section TwoSpellings.

Variables content content' file_path : string.

Lemma hardcoded_values_ignore_case (doc : string) (self : AzureConfigChecker) :
  _check_hardcoded_values (lowercase doc) file_path self
  = _check_hardcoded_values doc file_path self.
Proof.
  unfold _check_hardcoded_values. revert self.
  induction hardcoded_patterns as [|[pat msg] l IH]; intros self; simpl;
    [reflexivity|].
  rewrite <- IH. f_equal. unfold hardcoded_step.
  now rewrite (re_search_lower IGNORECASE eq_refl).
Qed.

(** X10.  Two documents that differ in letter case only get the same
    findings from the security rules and from the hardcoded-value
    check. *)
Theorem same_letters_same_findings (self : AzureConfigChecker) :
  lowercase content = lowercase content' ->
  _check_security_rules content file_path self
  = _check_security_rules content' file_path self
  /\ _check_hardcoded_values content file_path self
     = _check_hardcoded_values content' file_path self.
Proof.
  intros E. split.
  - rewrite <- (security_rules_ignore_case content),
      <- (security_rules_ignore_case content'). now rewrite E.
  - rewrite <- (hardcoded_values_ignore_case content),
      <- (hardcoded_values_ignore_case content'). now rewrite E.
Qed.

End TwoSpellings.

Lemma same_letters_same_findings_witness :
  _check_hardcoded_values (doc_assignment "ApiKey" "k") "main.bicep" __init__
  = _check_hardcoded_values (doc_assignment "APIKEY" "K") "main.bicep" __init__.
Proof.
  apply (proj2 (same_letters_same_findings (doc_assignment "ApiKey" "k")
                  (doc_assignment "APIKEY" "K") "main.bicep" __init__
                  ltac:(vm_compute; reflexivity))).
Defined.

(* ================================================================= *)
(** ** Further properties: the names the naming rules accept *)

Section NamingRules.

Ltac by_cases_on c :=
  destruct c as [[] [] [] [] [] [] [] []]; reflexivity.

Lemma alnum_set (c : ascii) :
  atom_match NOFLAGS (ASet false [SRange "a" "z"; SRange "0" "9"]) c
  = lower_alnum c.
Proof. by_cases_on c. Qed.

Lemma alnum_hyphen_set (c : ascii) :
  atom_match NOFLAGS
    (ASet false [SRange "a" "z"; SRange "0" "9"; SChar "-"]) c
  = lower_alnum_hyphen c.
Proof. by_cases_on c. Qed.

Lemma at_end_spec (s : string) :
  at_end s = true <-> s = EmptyString \/ s = nl.
Proof.
  destruct s as [|c [|d s]]; simpl.
  - tauto.
  - rewrite Ascii.eqb_eq. split.
    + intros ->. now right.
    + intros [H|H]; [discriminate|]. now injection H.
  - split; [discriminate|]. intros [H|H]; discriminate.
Qed.

(** What [re.match] accepts for a pattern of the shape of the naming
    rules. *)
Lemma name_rule_match (prefix : string) (set : atom) (allowed : ascii -> bool)
    (lo : nat) (hi : option nat) (value : string) :
  (forall c, atom_match NOFLAGS set c = allowed c) ->
  (match_at NOFLAGS (name_rule_regex prefix set lo hi) 0 value <> None
   <-> valid_name prefix allowed lo hi value).
Proof.
  intros Hset.
  assert (Hall : forall s, all_match NOFLAGS set s = string_forall allowed s)
    by (intros s; now apply all_match_ext).
  unfold name_rule_regex, valid_name. split.
  - destruct (match_at NOFLAGS _ 0 value) as [m|] eqn:Hm; [|congruence].
    intros _.
    destruct (match_at_sound _ _ _ _ _ Hm) as (s1 & s2 & -> & M & _).
    cbn [matches] in M. destruct M as (u & v & gm & -> & (-> & _ & ->) & M).
    apply (proj1 (matches_lit_seq _ _ _ _ _ _ _ _)) in M
      as (kw & t & -> & Hkw & M).
    unfold same_text in Hkw. simpl in Hkw. subst kw. cbn [matches] in M.
    destruct M as (body & e & gm1 & -> & (Hbody & Hlo & Hhi & ->) & M).
    destruct M as (e1 & e2 & gm2 & -> & (-> & Hend & ->) & (-> & _)).
    rewrite Hall in Hbody. apply at_end_spec in Hend. simpl in Hend.
    exists body. simpl. rewrite !append_nil_r.
    repeat split; auto.
    destruct Hend as [->| ->]; [left | right].
    + now rewrite append_nil_r.
    + now rewrite append_assoc.
  - intros (body & Hshape & Hlo & Hhi & Hbody).
    assert (M : forall s2, at_end s2 = true ->
                  matches NOFLAGS
                    (Cat Bol (lit_seq prefix (Cat (Rep set lo hi) (Cat Eol Eps))))
                    0 (prefix ++ body) s2 [] []).
    { intros s2 Hend. cbn [matches].
      exists EmptyString, (prefix ++ body), []. repeat split.
      apply matches_lit_seq. exists prefix, body. repeat split.
      cbn [matches]. exists body, EmptyString, [].
      rewrite append_nil_r, Hall. repeat split; auto.
      exists EmptyString, EmptyString, []. repeat split. exact Hend. }
    destruct Hshape as [-> | ->].
    + rewrite <- (append_nil_r (prefix ++ body)).
      apply (match_at_complete _ _ _ _ _ _ _ (M EmptyString eq_refl)).
    + rewrite <- append_assoc.
      apply (match_at_complete _ _ _ _ _ _ _ (M nl eq_refl)).
Qed.

Lemma found_re_match (pat : string) (r : regex) (value : string) :
  re_compile pat = Some r ->
  (found (re_match pat value) = true <-> match_at NOFLAGS r 0 value <> None).
Proof.
  intros Hc. unfold re_match. rewrite Hc.
  destruct (match_at NOFLAGS r 0 value); simpl; split; congruence.
Qed.

Lemma rule_accepts (pat prefix : string) (set : atom)
    (allowed : ascii -> bool) (lo : nat) (hi : option nat) :
  re_compile pat = Some (name_rule_regex prefix set lo hi) ->
  (forall c, atom_match NOFLAGS set c = allowed c) ->
  forall value,
    found (re_match pat value) = true <-> valid_name prefix allowed lo hi value.
Proof.
  intros Hc Hset value. rewrite (found_re_match _ _ value Hc).
  now apply name_rule_match.
Qed.

(** X11.  The names the naming rules accept.  A storage account name
    is [st] followed by 3 to 22 lower-case letters or digits; the name
    of each other category is its prefix ([rg-], [kv-], [app-], [asp-],
    [sql-], [cosmos-]) followed by one or more lower-case letters,
    digits or hyphens.  In both cases one newline may follow at the end
    of the name, and nothing else is accepted. *)
Theorem names_accepted_by_the_rules :
  (exists pat,
      dict_get naming_rules "storage_account" = Some pat
      /\ forall value,
           found (re_match pat value) = true
           <-> valid_name "st" lower_alnum 3 (Some 22) value)
  /\ (forall category prefix,
         In (category, prefix) hyphenated_rules ->
         exists pat,
           dict_get naming_rules category = Some pat
           /\ forall value,
                found (re_match pat value) = true
                <-> valid_name prefix lower_alnum_hyphen 1 None value).
Proof.
  split.
  - exists "^st[a-z0-9]{3,22}$". split; [reflexivity|].
    apply (rule_accepts "^st[a-z0-9]{3,22}$" "st"
             (ASet false [SRange "a" "z"; SRange "0" "9"]));
      [vm_compute; reflexivity | apply alnum_set].
  - intros category prefix Hin. simpl in Hin.
    repeat (destruct Hin as [Hin|Hin]; [injection Hin as <- <-|]);
      [..|contradiction].
    + exists "^rg-[a-z0-9-]+$". split; [reflexivity|].
      apply (rule_accepts "^rg-[a-z0-9-]+$" "rg-"
               (ASet false [SRange "a" "z"; SRange "0" "9"; SChar "-"]));
        [vm_compute; reflexivity | apply alnum_hyphen_set].
    + exists "^kv-[a-z0-9-]+$". split; [reflexivity|].
      apply (rule_accepts "^kv-[a-z0-9-]+$" "kv-"
               (ASet false [SRange "a" "z"; SRange "0" "9"; SChar "-"]));
        [vm_compute; reflexivity | apply alnum_hyphen_set].
    + exists "^app-[a-z0-9-]+$". split; [reflexivity|].
      apply (rule_accepts "^app-[a-z0-9-]+$" "app-"
               (ASet false [SRange "a" "z"; SRange "0" "9"; SChar "-"]));
        [vm_compute; reflexivity | apply alnum_hyphen_set].
    + exists "^asp-[a-z0-9-]+$". split; [reflexivity|].
      apply (rule_accepts "^asp-[a-z0-9-]+$" "asp-"
               (ASet false [SRange "a" "z"; SRange "0" "9"; SChar "-"]));
        [vm_compute; reflexivity | apply alnum_hyphen_set].
    + exists "^sql-[a-z0-9-]+$". split; [reflexivity|].
      apply (rule_accepts "^sql-[a-z0-9-]+$" "sql-"
               (ASet false [SRange "a" "z"; SRange "0" "9"; SChar "-"]));
        [vm_compute; reflexivity | apply alnum_hyphen_set].
    + exists "^cosmos-[a-z0-9-]+$". split; [reflexivity|].
      apply (rule_accepts "^cosmos-[a-z0-9-]+$" "cosmos-"
               (ASet false [SRange "a" "z"; SRange "0" "9"; SChar "-"]));
        [vm_compute; reflexivity | apply alnum_hyphen_set].
Qed.

End NamingRules.

Lemma names_accepted_by_the_rules_witness :
  exists pat,
    dict_get naming_rules "key_vault" = Some pat
    /\ forall value,
         found (re_match pat value) = true
         <-> valid_name "kv-" lower_alnum_hyphen 1 None value.
Proof.
  apply (proj2 names_accepted_by_the_rules "key_vault" "kv-").
  cbv. tauto.
Defined.

(* ================================================================= *)
(** ** Further properties: when the naming check stays silent, and what
       its warnings are about *)

Section NamingScope.

Variables content file_path : string.

Lemma dict_get_in {V} (d : list (string * V)) (key : string) (v : V) :
  dict_get d key = Some v -> In key (map fst d).
Proof.
  induction d as [|[k w] d IH]; simpl; [discriminate|].
  destruct (String.eqb_spec k key) as [->|_]; [now left|].
  intros H. right. now apply IH.
Qed.

Lemma versioned_type_is_unmapped (resource_type : string) :
  occurs_in "@" resource_type -> naming_category resource_type = None.
Proof.
  intros Hat. unfold naming_category.
  destruct (dict_get type_mapping resource_type) as [naming_type|] eqn:Ht;
    [|reflexivity].
  exfalso. apply dict_get_in in Ht. apply contains_spec in Hat.
  assert (Hkeys : forallb (fun k => negb (contains "@" k))
                    (map fst type_mapping) = true) by (vm_compute; reflexivity).
  rewrite forallb_forall in Hkeys. specialize (Hkeys _ Ht).
  rewrite Hat in Hkeys. discriminate.
Qed.

(** X12.  A declaration whose type is not, character for character, one
    of the seven types of [type_mapping] is never warned about; so a type
    that carries an API version after [@] is never checked, and a
    document whose declared types all carry one gets no naming warning. *)
Theorem versioned_types_are_not_checked (self : AzureConfigChecker) :
  (forall resource_name resource_type,
      In (resource_name, resource_type) (re_findall resource_pattern content) ->
      occurs_in "@" resource_type) ->
  _check_naming_conventions content file_path self = self.
Proof.
  intros Hall. rewrite naming_findings.
  assert (E : flat_map (declaration_warning file_path (first_name content))
                (re_findall resource_pattern content) = []).
  { apply flat_map_nil. intros [rn rt] Hin. unfold declaration_warning.
    cbn [fst snd]. now rewrite (versioned_type_is_unmapped rt (Hall _ _ Hin)). }
  rewrite E, app_nil_r. now destruct self.
Qed.

(** X13.  A document without any [name: '...'] property gets no naming
    warning, whatever it declares. *)
Theorem unnamed_documents_pass (self : AzureConfigChecker) :
  (forall before value, ~ name_property_at content before value) ->
  _check_naming_conventions content file_path self = self.
Proof.
  intros Hnone. rewrite naming_findings.
  pose proof (first_name_spec content) as Hspec.
  destruct (first_name content) as [value|].
  - destruct Hspec as (before & Hat & _). now apply Hnone in Hat.
  - assert (E : flat_map (declaration_warning file_path None)
                  (re_findall resource_pattern content) = []).
    { apply flat_map_nil. intros [rn rt] _. unfold declaration_warning.
      now destruct (naming_category (snd (rn, rt))). }
    rewrite E, app_nil_r. now destruct self.
Qed.

Lemma resource_pattern_compiles :
  re_compile resource_pattern = Some resource_regex.
Proof. vm_compute. reflexivity. Qed.

Lemma scan_sound (fl : flags) (r : regex) (s : string) :
  forall skip i m,
    In m (scan fl r skip i s) ->
    exists p t, s = p ++ t /\ match_at fl r (i + String.length p) t = Some m.
Proof.
  induction s as [|c s IH]; intros skip i m Hin.
  - destruct skip as [|k]; cbn [scan] in Hin; [|contradiction].
    destruct (match_at fl r i EmptyString) as [m0|] eqn:Hm;
      [|contradiction].
    destruct Hin as [<-|[]]. exists EmptyString, EmptyString.
    simpl. now rewrite Nat.add_0_r.
  - assert (Hlater : forall k, In m (scan fl r k (S i) s) ->
                               exists p t, String c s = p ++ t
                                           /\ match_at fl r (i + String.length p) t
                                              = Some m).
    { intros k H. destruct (IH _ _ _ H) as (p & t & -> & Hm).
      exists (String c p), t. simpl. now rewrite <- plus_n_Sm. }
    destruct skip as [|k]; cbn [scan] in Hin; [|now apply (Hlater k)].
    destruct (match_at fl r i (String c s)) as [m0|] eqn:Hm.
    + destruct Hin as [<-|Hin]; [|now apply (Hlater _ Hin)].
      exists EmptyString, (String c s). simpl. now rewrite Nat.add_0_r.
    + now apply (Hlater 0).
Qed.

Lemma blank_spec (s : string) :
  all_match NOFLAGS ASpace s = true -> 1 <= String.length s -> blank s.
Proof.
  intros Hall Hlen. split.
  - now apply length_positive.
  - now rewrite <- (all_match_ext NOFLAGS ASpace is_space s (fun c => eq_refl)).
Qed.

(** What [resource_pattern] covers, and its two groups. *)
Lemma resource_matches (i : nat) (s1 s2 : string) (g' : groups) :
  matches NOFLAGS resource_regex i s1 s2 [] g' ->
  exists ws1 name ws2 type ws3 ws4,
    s1 = "resource" ++ ws1 ++ name ++ ws2 ++ "'" ++ type ++ "'" ++ ws3
           ++ "=" ++ ws4 ++ "{"
    /\ blank ws1 /\ blank ws2 /\ blank ws3 /\ blank ws4
    /\ name <> EmptyString /\ string_forall is_word name = true
    /\ type <> EmptyString /\ string_forall not_squote type = true
    /\ g' = [(2, type); (1, name)].
Proof.
  unfold resource_regex. intros M.
  apply (proj1 (matches_lit_seq _ _ _ _ _ _ _ _)) in M
    as (kw & t & -> & Hkw & M).
  unfold same_text in Hkw. simpl in Hkw. subst kw. cbn [matches] in M.
  destruct M as (ws1 & t1 & gm1 & -> & (Hws1 & Hl1 & _ & ->) & M).
  destruct M as (name & t2 & gm2 & -> & (gm2' & Mn & ->) & M).
  destruct Mn as (name' & e & gm3 & -> & (Hname & Hln & _ & ->) & (-> & ->)).
  destruct M as (ws2 & t3 & gm4 & -> & (Hws2 & Hl2 & _ & ->) & M).
  destruct M as (q1 & t4 & gm5 & -> & (c1 & -> & Hc1 & ->) & M).
  destruct M as (type & t5 & gm6 & -> & (gm6' & Mt & ->) & M).
  destruct Mt as (type' & e & gm7 & -> & (Htype & Hlt & _ & ->) & (-> & ->)).
  destruct M as (q2 & t6 & gm8 & -> & (c2 & -> & Hc2 & ->) & M).
  destruct M as (ws3 & t7 & gm9 & -> & (Hws3 & Hl3 & _ & ->) & M).
  destruct M as (eq & t8 & gm10 & -> & (c3 & -> & Hc3 & ->) & M).
  destruct M as (ws4 & t9 & gm11 & -> & (Hws4 & Hl4 & _ & ->) & M).
  destruct M as (br & e & gm12 & -> & (c4 & -> & Hc4 & ->) & (-> & ->)).
  simpl in Hc1, Hc2, Hc3, Hc4.
  apply Ascii.eqb_eq in Hc1, Hc2, Hc3, Hc4. subst c1 c2 c3 c4.
  rewrite !append_nil_r.
  exists ws1, name', ws2, type', ws3, ws4.
  repeat match goal with |- _ /\ _ => split end;
    try (now apply blank_spec); try (now apply length_positive);
    try reflexivity.
  - now rewrite <- (all_match_ext NOFLAGS AWord is_word name' (fun c => eq_refl)).
  - rewrite <- Htype. symmetry. apply all_match_ext. intros c.
    unfold not_squote. simpl. now rewrite orb_false_r.
Qed.

(** Every pair [re.findall] gives is a declaration of the document. *)
Lemma declarations_found (resource_name resource_type : string) :
  In (resource_name, resource_type) (re_findall resource_pattern content) ->
  exists before, declaration_at content before resource_name resource_type.
Proof.
  unfold re_findall. rewrite resource_pattern_compiles. intros Hin.
  apply in_map_iff in Hin as (m & E & Hin).
  destruct (scan_sound _ _ _ _ _ _ Hin) as (before & t & -> & Hm).
  destruct (match_at_sound _ _ _ _ _ Hm) as (s1 & s2 & -> & M & _).
  apply resource_matches in M
    as (ws1 & name & ws2 & type & ws3 & ws4 & -> & H1 & H2 & H3 & H4
        & Hn & Hnw & Ht & Htq & G).
  unfold group in E. rewrite G in E. simpl in E. injection E as <- <-.
  exists before, ws1, ws2, ws3, ws4, s2.
  split; [reflexivity | tauto].
Qed.

(** X14.  Every naming warning is about a declaration that stands in
    the document: a warning names a resource and a type for which the
    document holds [resource <name> '<type>' = {], with a name made of
    word characters, and quotes the pattern of the type's category. *)
Theorem naming_warnings_name_declarations (self : AzureConfigChecker) :
  exists added,
    warnings (_check_naming_conventions content file_path self)
    = (warnings self ++ added)%list
    /\ forall warning,
         In warning added ->
         exists resource_name resource_type pat before,
           warning = naming_warning file_path resource_name resource_type pat
           /\ naming_category resource_type = Some pat
           /\ declaration_at content before resource_name resource_type.
Proof.
  rewrite naming_findings. cbn [warnings].
  exists (flat_map (declaration_warning file_path (first_name content))
            (re_findall resource_pattern content)).
  split; [reflexivity|]. intros warning Hin.
  apply in_flat_map in Hin as ([rn rt] & Hdecl & Hin).
  destruct (declarations_found rn rt Hdecl) as (before & Hat).
  unfold declaration_warning in Hin. cbn [fst snd] in Hin.
  destruct (naming_category rt) as [pat|] eqn:Hcat; [|contradiction].
  destruct (first_name content) as [value|]; [|contradiction].
  destruct (found (re_match pat value)); [contradiction|].
  destruct Hin as [<-|[]]. now exists rn, rt, pat, before.
Qed.

End NamingScope.

Lemma versioned_types_are_not_checked_witness :
  _check_naming_conventions doc_vault_and_site "main.bicep" __init__ = __init__.
Proof.
  apply versioned_types_are_not_checked.
  intros rn rt Hin. apply contains_spec.
  vm_compute in Hin.
  destruct Hin as [E|[E|[]]]; injection E as _ <-; vm_compute; reflexivity.
Defined.

Lemma unnamed_documents_pass_witness :
  _check_naming_conventions doc_unnamed "main.bicep" __init__ = __init__.
Proof.
  apply unnamed_documents_pass.
  pose proof (first_name_spec doc_unnamed) as H.
  assert (E : first_name doc_unnamed = None) by (vm_compute; reflexivity).
  rewrite E in H. exact H.
Defined.

(* ================================================================= *)
(** ** Further properties: the routing warning, and the findings of one
       file *)

Lemma security_pass_adds_errors_only_bound (content file_path : string) :
  List.length (errors (_check_security_rules content file_path __init__)) <= 4.
Proof.
  rewrite security_findings. cbn [errors]. rewrite !length_app.
  repeat match goal with
         | |- context [if ?b then _ else _] => destruct b
         end; simpl; lia.
Qed.

Section Routing.

Variables content file_path : string.

(** X15.  The resource-dependency check adds the routing warning
    exactly once when the document holds the web-app type and does not
    hold [vnetRouteAllEnabled], and not at all otherwise; it never adds
    more than two warnings. *)
Theorem vnet_warning_rule (self : AzureConfigChecker) :
  let self' := _check_resource_dependencies content file_path self in
  let warning := vnet_warning file_path in
  (occurs_in "Microsoft.Web/sites" content ->
   ~ occurs_in "vnetRouteAllEnabled" content ->
   count (warnings self') warning = count (warnings self) warning + 1)
  /\ (~ occurs_in "Microsoft.Web/sites" content
      \/ occurs_in "vnetRouteAllEnabled" content ->
      count (warnings self') warning = count (warnings self) warning)
  /\ List.length (warnings self') <= List.length (warnings self) + 2.
Proof.
  cbv zeta. rewrite dependency_findings. cbn [warnings].
  set (b1 := contains "Microsoft.KeyVault/vaults" content
             && (contains "Microsoft.Web/sites" content
                 || contains "Microsoft.ContainerInstance/containerGroups"
                      content)
             && negb (contains "accessPolicies" content)).
  destruct (count_dependency_warnings file_path self b1
              (contains "Microsoft.Web/sites" content
               && negb (contains "vnetRouteAllEnabled" content))) as [_ Hv].
  cbv zeta in Hv. rewrite Hv. split; [|split].
  - intros Hweb Hvn. apply contains_spec in Hweb. apply contains_absent in Hvn.
    now rewrite Hweb, Hvn.
  - intros [Hweb|Hvn].
    + apply contains_absent in Hweb. rewrite Hweb. simpl. lia.
    + apply contains_spec in Hvn. rewrite Hvn, andb_false_r. lia.
  - rewrite !length_app.
    destruct b1, (contains "Microsoft.Web/sites" content
                  && negb (contains "vnetRouteAllEnabled" content));
      simpl; lia.
Qed.

End Routing.

Section OneFile.

Variable fs : filesystem.
Variable file_path : string.

(** The findings of a file that can be read, pass by pass. *)
Lemma file_findings_text (content : string) :
  fs file_path = Text content ->
  file_errors fs file_path
  = (errors (_check_security_rules content file_path __init__)
     ++ errors (_check_hardcoded_values content file_path __init__))%list
  /\ file_warnings fs file_path
     = (flat_map (declaration_warning file_path (first_name content))
          (re_findall resource_pattern content)
        ++ warnings (_check_resource_dependencies content file_path __init__))%list.
Proof.
  intros Hread. unfold file_errors, file_warnings, checked, check_file.
  rewrite Hread. cbn [fst snd].
  rewrite dependency_findings. cbn [errors warnings].
  rewrite (appends_hardcoded content file_path
             (_check_naming_conventions content file_path
                (_check_security_rules content file_path __init__))).
  cbn [errors warnings]. rewrite naming_findings. cbn [errors warnings].
  rewrite (dependency_findings content file_path __init__).
  rewrite hardcoded_findings, security_findings. cbn [errors warnings app].
  now rewrite !app_nil_r.
Qed.

(** X16.  Every finding [check_file] records for a file names the file:
    the line is the path, a colon and some text, or [Error reading],
    the path, a colon and some text. *)
Theorem findings_name_their_file (finding : string) :
  In finding (file_errors fs file_path ++ file_warnings fs file_path) ->
  exists rest,
    finding = file_path ++ ": " ++ rest
    \/ finding = "Error reading " ++ file_path ++ ": " ++ rest.
Proof.
  destruct (fs file_path) as [text|reason] eqn:Hread.
  - intros Hin.
    assert (Hline : exists rest, finding = file_path ++ ": " ++ rest);
      [|destruct Hline as [rest ->]; exists rest; now left].
    destruct (file_findings_text text Hread) as [He Hw].
    rewrite He, Hw in Hin.
    rewrite (dependency_findings text file_path __init__) in Hin.
    rewrite hardcoded_findings, security_findings in Hin.
    cbn [errors warnings app flat_map hardcoded_keywords fst snd] in Hin.
    repeat (apply in_app_or in Hin as [Hin|Hin]).
    all: try (apply in_flat_map in Hin as ([rn rt] & _ & Hin);
              unfold declaration_warning in Hin; cbn [fst snd] in Hin;
              destruct (naming_category rt); [|contradiction];
              destruct (first_name text); [|contradiction];
              destruct (found _); [contradiction|]).
    all: repeat match type of Hin with
                | In _ (if ?b then _ else _) => destruct b
                end;
      simpl in Hin; repeat destruct Hin as [Hin|Hin]; try contradiction;
      subst finding; eexists; reflexivity.
  - unfold file_errors, file_warnings, checked, check_file. rewrite Hread.
    simpl. intros [<-|[]]. exists reason. now right.
Qed.

(** X17.  A file that can be read gets nine errors at most (four from
    the security rules, five from the hardcoded-value check) and, as
    warnings, one at most for each declaration found and two more; a
    file that cannot be read gets exactly one error and no warning, and
    no progress line is printed for it. *)
Theorem findings_of_one_file (content : string) :
  (fs file_path = Text content ->
   List.length (file_errors fs file_path) <= 9
   /\ List.length (file_warnings fs file_path)
      <= List.length (re_findall resource_pattern content) + 2)
  /\ (forall reason,
         fs file_path = Raises reason ->
         List.length (file_errors fs file_path) = 1
         /\ file_warnings fs file_path = []
         /\ file_events fs file_path = [Open file_path]).
Proof.
  split.
  - intros Hread. destruct (file_findings_text content Hread) as [-> ->].
    rewrite !length_app. split.
    + pose proof (security_pass_adds_errors_only_bound) as Hs.
      rewrite hardcoded_findings. cbn [errors flat_map hardcoded_keywords fst snd].
      specialize (Hs content file_path).
      rewrite !length_app.
      repeat match goal with
             | |- context [if ?b then _ else _] =>
                 lazymatch b with
                 | found _ => destruct b
                 end
             end; simpl; lia.
    + rewrite (dependency_findings content file_path __init__).
      cbn [warnings app]. rewrite length_app.
      assert (Hdecl : forall name l,
                 List.length (flat_map (declaration_warning file_path name) l)
                 <= List.length l).
      { intros name l. induction l as [|[rn rt] l IH]; simpl; [lia|].
        rewrite length_app. unfold declaration_warning at 1. cbn [fst snd].
        destruct (naming_category rt); [|simpl; lia].
        destruct name; [|simpl; lia].
        destruct (found _); simpl; lia. }
      specialize (Hdecl (first_name content)
                    (re_findall resource_pattern content)).
      repeat match goal with
             | |- context [if ?b then _ else _] => destruct b
             end; simpl; lia.
  - intros reason Hread.
    unfold file_errors, file_warnings, file_events, checked, check_file.
    now rewrite Hread.
Qed.

End OneFile.

Lemma vnet_warning_rule_witness :
  count (warnings (_check_resource_dependencies doc_vault_and_site
                     "main.bicep" __init__))
        (vnet_warning "main.bicep") = 0 + 1.
Proof.
  apply (proj1 (vnet_warning_rule doc_vault_and_site "main.bicep" __init__)).
  - apply contains_spec. vm_compute. reflexivity.
  - apply contains_absent. vm_compute. reflexivity.
Defined.

Lemma findings_name_their_file_witness :
  exists rest,
    "nohttps.bicep: App Services should enforce HTTPS only"
    = "nohttps.bicep" ++ ": " ++ rest
    \/ "nohttps.bicep: App Services should enforce HTTPS only"
       = "Error reading " ++ "nohttps.bicep" ++ ": " ++ rest.
Proof.
  apply (findings_name_their_file disk "nohttps.bicep").
  vm_compute. now left.
Defined.

Lemma findings_of_one_file_witness :
  List.length (file_errors disk "clean.bicep") <= 9
  /\ List.length (file_warnings disk "clean.bicep")
     <= List.length (re_findall resource_pattern doc_clean) + 2.
Proof.
  apply (proj1 (findings_of_one_file disk "clean.bicep" doc_clean)).
  reflexivity.
Defined.

(* ================================================================= *)
(** ** Further properties: the order of the findings *)

(** X18.  The findings of a run are those of its files, file after
    file in the order of the arguments, a file given twice counting
    twice; and within a file that can be read the errors are those of
    the security rules followed by those of the hardcoded-value check,
    the warnings those of the naming check followed by those of the
    resource-dependency check. *)
Theorem findings_in_order (fs : filesystem) (argv : list string) :
  errors (final_checker fs argv) = flat_map (file_errors fs) (qualifying argv)
  /\ warnings (final_checker fs argv)
     = flat_map (file_warnings fs) (qualifying argv)
  /\ forall file_path content,
       fs file_path = Text content ->
       file_errors fs file_path
       = (errors (_check_security_rules content file_path __init__)
          ++ errors (_check_hardcoded_values content file_path __init__))%list
       /\ file_warnings fs file_path
          = (warnings (_check_naming_conventions content file_path __init__)
             ++ warnings (_check_resource_dependencies content file_path
                            __init__))%list.
Proof.
  destruct (final_checker_spec fs argv) as [E W].
  split; [exact E | split; [exact W|]].
  intros file_path content Hread.
  destruct (file_findings_text fs file_path content Hread) as [He Hw].
  split; [exact He|]. rewrite Hw, naming_findings. reflexivity.
Qed.

Lemma findings_in_order_witness :
  file_errors disk "nohttps.bicep"
  = (errors (_check_security_rules doc_no_https "nohttps.bicep" __init__)
     ++ errors (_check_hardcoded_values doc_no_https "nohttps.bicep" __init__))%list.
Proof.
  apply (proj2 (proj2 (findings_in_order disk []))
           "nohttps.bicep" doc_no_https eq_refl).
Defined.

(* ================================================================= *)
(** ** The storage-account rule in the naming check *)

(** C2 (as amended).  Take a document in which the resource pattern
    finds one declaration only, of the type
    [Microsoft.Storage/storageAccounts] spelled exactly so, and let the
    value of the first [name: '...'] property of the document be the
    name validated.  The naming check leaves the checker as it is when
    that value is [st] followed by 3 to 22 lower-case letters or digits
    (a newline may end it), and adds exactly one warning, which quotes
    [^st[a-z0-9]{3,22}$], for every other value.  [st123] and
    [storage1] are both of the first kind, [Storage1] is not. *)
Theorem storage_account_naming
    (content file_path resource_name value : string)
    (self : AzureConfigChecker) :
  re_findall resource_pattern content
  = [(resource_name, "Microsoft.Storage/storageAccounts")] ->
  first_name content = Some value ->
  let self' := _check_naming_conventions content file_path self in
  let fits := valid_name "st" lower_alnum 3 (Some 22) in
  (fits value -> self' = self)
  /\ (~ fits value ->
      self' = warnings_append self
                (naming_warning file_path resource_name
                   "Microsoft.Storage/storageAccounts" "^st[a-z0-9]{3,22}$"))
  /\ fits "st123" /\ fits "storage1" /\ ~ fits "Storage1".
Proof.
  intros Hdecl Hname. cbv zeta.
  assert (Hrule : forall v,
             found (re_match "^st[a-z0-9]{3,22}$" v) = true
             <-> valid_name "st" lower_alnum 3 (Some 22) v).
  { apply (rule_accepts "^st[a-z0-9]{3,22}$" "st"
             (ASet false [SRange "a" "z"; SRange "0" "9"]));
      [vm_compute; reflexivity | apply alnum_set]. }
  rewrite naming_findings, Hdecl, Hname.
  destruct self as [e w]. cbn [errors warnings flat_map].
  unfold declaration_warning. cbn [fst snd].
  assert (Hcat : naming_category "Microsoft.Storage/storageAccounts"
                 = Some "^st[a-z0-9]{3,22}$") by reflexivity.
  rewrite Hcat, app_nil_r. unfold warnings_append. cbn [errors warnings].
  split; [|split; [|split; [|split]]].
  - intros Hfit. apply Hrule in Hfit. rewrite Hfit. now rewrite app_nil_r.
  - intros Hfit.
    destruct (found (re_match "^st[a-z0-9]{3,22}$" value)) eqn:Hm;
      [|reflexivity].
    exfalso. apply Hfit, Hrule. exact Hm.
  - apply Hrule. vm_compute. reflexivity.
  - apply Hrule. vm_compute. reflexivity.
  - intros Hfit. apply Hrule in Hfit. vm_compute in Hfit. discriminate.
Qed.

Lemma storage_account_naming_witness :
  _check_naming_conventions (doc_storage "st123") "main.bicep" __init__
  = __init__
  /\ _check_naming_conventions (doc_storage "my_storage") "main.bicep" __init__
     = warnings_append __init__
         (naming_warning "main.bicep" "sa" "Microsoft.Storage/storageAccounts"
            "^st[a-z0-9]{3,22}$").
Proof.
  assert (Hrule : forall v,
             found (re_match "^st[a-z0-9]{3,22}$" v) = true
             <-> valid_name "st" lower_alnum 3 (Some 22) v).
  { apply (rule_accepts "^st[a-z0-9]{3,22}$" "st"
             (ASet false [SRange "a" "z"; SRange "0" "9"]));
      [vm_compute; reflexivity | apply alnum_set]. }
  split.
  - apply (proj1 (storage_account_naming (doc_storage "st123") "main.bicep"
                    "sa" "st123" __init__
                    ltac:(vm_compute; reflexivity)
                    ltac:(vm_compute; reflexivity))).
    apply Hrule. vm_compute. reflexivity.
  - apply (proj1 (proj2 (storage_account_naming (doc_storage "my_storage")
                           "main.bicep" "sa" "my_storage" __init__
                           ltac:(vm_compute; reflexivity)
                           ltac:(vm_compute; reflexivity)))).
    intros Hfit. apply Hrule in Hfit. vm_compute in Hfit. discriminate.
Defined.

(* ================================================================= *)
(** ** The hardcoded-value check does not need a literal of 8 characters *)

Lemma literal_shape (before body after : string) (q : ascii) :
  before ++ String q (body ++ String q after)
  = before ++ String q (body ++ String q EmptyString) ++ after.
Proof. simpl. now rewrite append_assoc. Qed.

(** A literal of [n] characters or more is found by [literal_regex]. *)
Lemma literal_found (n : nat) (content : string) :
  literal_of_length n content ->
  found (search_from IGNORECASE (literal_regex n) 0 content) = true.
Proof.
  intros (before & q & body & after & E & Hq & Hbody & Hlen).
  destruct (search_from IGNORECASE (literal_regex n) 0 content) as [m|] eqn:Hs;
    [reflexivity|].
  exfalso. rewrite literal_shape in E.
  apply (search_from_none _ _ _ _ Hs before _ after [] [] E).
  assert (Hrun : matches IGNORECASE
                   (Rep (ASet true [SChar squote; SChar dquote]) n None)
                   (String.length before + 1) body
                   (String q EmptyString ++ after) [] []).
  { simpl. repeat split; auto.
    now rewrite (all_match_ext IGNORECASE _ not_quote body no_quote_set). }
  unfold is_quote in Hq. apply orb_true_iff in Hq.
  unfold literal_regex. cbv zeta. cbn [matches].
  destruct Hq as [Hq|Hq]; apply Ascii.eqb_eq in Hq; subst q; [left | right].
  - exists (String squote EmptyString), (body ++ String squote EmptyString), [].
    split; [reflexivity | split; [now exists squote|]].
    exists body, (String squote EmptyString), [].
    split; [reflexivity | split; [exact Hrun | now exists squote]].
  - exists (String dquote EmptyString), (body ++ String dquote EmptyString), [].
    split; [reflexivity | split; [now exists dquote|]].
    exists body, (String dquote EmptyString), [].
    split; [reflexivity | split; [exact Hrun | now exists dquote]].
Qed.

(** C4, counterexample to the sentence of the specification: the
    password of the document has three characters and the document
    holds no quoted literal of 8 characters or more, yet the check
    records the password error: the run it found lies between the end
    of one literal and the start of the next. *)
Lemma password_error_without_long_literal :
  errors (_check_hardcoded_values doc_short_password "main.bicep" __init__)
  = ["main.bicep: Possible hardcoded password"]
  /\ ~ literal_of_length 8 doc_short_password.
Proof.
  split.
  - vm_compute. reflexivity.
  - intros H. apply literal_found in H. vm_compute in H. discriminate.
Qed.

(* ================================================================= *)
(** ** Further properties: which arguments [main] opens *)

Lemma opened_in (trace : list event) (file_path : string) :
  In (Open file_path) trace <-> In file_path (opened trace).
Proof.
  induction trace as [|[p|l] trace IH]; simpl.
  - tauto.
  - rewrite <- IH. split; intros [H|H]; auto; left; congruence.
  - rewrite <- IH. split; [intros [H|H]; [discriminate | exact H] | auto].
Qed.

Lemma opened_files_of_main (fs : filesystem) (argv : list string) :
  opened (fst (main fs argv)) = qualifying argv.
Proof.
  destruct (Nat.lt_ge_cases (List.length argv) 2) as [Hlt|Hge].
  - rewrite (short_argv_qualifies_nothing argv Hlt). unfold main.
    destruct (Nat.ltb_spec (List.length argv) 2); [reflexivity | lia].
  - rewrite (main_spec fs argv Hge). cbv zeta.
    pose proof (opened_print_results (final_checker fs argv)) as Hout.
    assert (Hfiles : forall l, opened (flat_map (file_events fs) l) = l).
    { induction l as [|f l IH]; simpl; [reflexivity|].
      now rewrite opened_app, opened_file_events, IH. }
    destruct (print_results (final_checker fs argv)) as [[|] out];
      cbn [fst snd] in *; rewrite !opened_app, Hfiles, Hout;
      cbn [opened tips app]; now rewrite ?app_nil_r.
Qed.

(** X1.  A run of [main] opens a path exactly when the path is one of
    the arguments after the script's own name and is some text followed
    by [.bicep], in these very letters; [main] passes over every other
    argument. *)
Theorem checked_arguments (fs : filesystem) (argv : list string)
    (file_path : string) :
  In (Open file_path) (fst (main fs argv))
  <-> In file_path (tl argv) /\ exists stem, file_path = stem ++ ".bicep".
Proof.
  rewrite opened_in, opened_files_of_main.
  unfold qualifying. rewrite filter_In, endswith_spec. reflexivity.
Qed.
